(** * Safe relay service: models, status view and Redis provider

    A shallow embedding of
      - [safe_relay_service/relay/models.py],
      - [safe_relay_service/relay/views_v2.py] (class [SafeSignalView]),
      - [safe_relay_service/safe/redis_service.py],
    together with the properties their specification states about them.

    Python values are modelled as the code uses them: [None]-able attributes
    are [option]s, text is [string], unsigned 256-bit columns are [N],
    a call that may raise returns a [Py.result]. Tables with a primary key
    are finite maps from that key, the table without a natural key is a list
    of rows in insertion order. *)

From Stdlib Require Import String Ascii NArith List Bool Lia.
From stdpp Require Import base decidable option list gmap strings pretty.

Local Open Scope string_scope.

(** ** Python fragments used by the sources *)

Module Py.

(** The exceptions the modelled code can meet. *)
Inductive exn : Type :=
| AttributeError
| IntegrityError
| DoesNotExist.

#[global] Instance exn_eq_dec : EqDecision exn.
Proof. solve_decision. Defined.

(** Outcome of evaluating a Python expression: a value, or a raised exception. *)
Inductive result (A : Type) : Type :=
| Ok (a : A)
| Raise (e : exn).
Arguments Ok {A} a.
Arguments Raise {A} e.

#[global] Instance result_ret : MRet result := fun _ a => Ok a.
#[global] Instance result_bind : MBind result := fun _ _ k r =>
  match r with Ok a => k a | Raise e => Raise e end.

(** [str.lower()] on one character. Text is read as a sequence of code
    points below 256: the capitals A-Z and the Latin-1 capitals
    U+00C0-U+00DE (without the multiplication sign U+00D7) move up by 32,
    every other character is kept. *)
Definition chr_lower (c : ascii) : ascii :=
  let n := N_of_ascii c in
  if (((65 <=? n) && (n <=? 90)) || ((192 <=? n) && (n <=? 222) && negb (n =? 215)))%N
  then ascii_of_N (n + 32)
  else c.

Fixpoint lower (s : string) : string :=
  match s with
  | EmptyString => EmptyString
  | String c s' => String (chr_lower c) (lower s')
  end.

(** Truth value of a [str]: the empty string is false. *)
Definition str_truthy (s : string) : bool :=
  match s with EmptyString => false | String _ _ => true end.

(** Truth value of an [Optional[str]]: [None] is false. *)
Definition opt_str_truthy (v : option string) : bool :=
  match v with None => false | Some s => str_truthy s end.

(** [v.lower()] for [v : Optional[str]]: [None] has no such attribute. *)
Definition call_lower (v : option string) : result string :=
  match v with
  | Some s => Ok (lower s)
  | None => Raise AttributeError
  end.

(** *** Casings of a lower-case word *)

Definition is_ascii_lower (c : ascii) : bool :=
  let n := N_of_ascii c in ((97 <=? n) && (n <=? 122))%N.

Definition ascii_upper (c : ascii) : ascii :=
  if is_ascii_lower c then ascii_of_N (N_of_ascii c - 32) else c.

(** [casing_of w s]: [s] is the word [w] with any of its letters a-z
    written as a capital. *)
Inductive casing_of : string -> string -> Prop :=
| casing_nil : casing_of "" ""
| casing_keep c w s : casing_of w s -> casing_of (String c w) (String c s)
| casing_cap c w s :
    is_ascii_lower c = true ->
    casing_of w s -> casing_of (String c w) (String (ascii_upper c) s).

Fixpoint all_lower (w : string) : bool :=
  match w with
  | EmptyString => true
  | String c w' => is_ascii_lower c && all_lower w'
  end.

End Py.

Import Py.

(** ** [relay/models.py] *)

(** *** [class EthereumTxCallType(Enum)] *)

Module EthereumTxCallType.

Inductive t : Type :=
| CALL
| DELEGATE_CALL.

Definition value (c : t) : N :=
  match c with CALL => 0%N | DELEGATE_CALL => 1%N end.

Definition parse_call_type (call_type : option string) : result (option t) :=
  if negb (opt_str_truthy call_type) then Ok None
  else
    l ← call_lower call_type;
    if String.eqb l "call" then Ok (Some CALL)
    else
      l' ← call_lower call_type;
      if String.eqb l' "delegatecall" then Ok (Some DELEGATE_CALL)
      else Ok None.

End EthereumTxCallType.

(** *** Column types of [gnosis.eth.django.models]

    [EthereumAddressField] holds the text of an address and [Uint256Field]
    an unsigned integer. [Sha3HashField] keeps the hexadecimal digits of a
    digest in the database and hands the attribute to Python as that text
    behind the prefix [0x], so the Python value of a recorded hash is never
    the empty text; a column declared [null=True] may hold [None] instead. *)

Definition EthereumAddress : Type := string.

Record Sha3Hash : Type := { hex_digits : string }.

#[global] Instance Sha3Hash_eq_dec : EqDecision Sha3Hash.
Proof. solve_decision. Defined.

Definition Sha3Hash_to_python (h : Sha3Hash) : string := "0x" ++ hex_digits h.

(** Truth value of a nullable hash attribute, as [if self.some_tx_hash:] tests it. *)
Definition hash_truthy (h : option Sha3Hash) : bool :=
  opt_str_truthy (Sha3Hash_to_python <$> h).

(** *** [class SafeFunding(TimeStampedModel)] *)

Module SafeFunding.

Record t : Type := {
  safe : EthereumAddress;
  safe_funded : bool;
  deployer_funded : bool;
  deployer_funded_tx_hash : option Sha3Hash;
  safe_deployed : bool;
  safe_deployed_tx_hash : option Sha3Hash
}.

Definition is_all_funded (self : t) : bool :=
  safe_funded self && deployer_funded self.

Definition status (self : t) : string :=
  if safe_deployed self then "DEPLOYED"
  else if hash_truthy (safe_deployed_tx_hash self) then "DEPLOYED_UNCHECKED"
  else if deployer_funded self then "DEPLOYER_FUNDED"
  else if hash_truthy (deployer_funded_tx_hash self) then "DEPLOYER_FUNDED_UNCHECKED"
  else if safe_funded self then "DEPLOYER_NOT_FUNDED_SAFE_WITH_BALANCE"
  else "SAFE_WITHOUT_BALANCE".

End SafeFunding.

(** The lifecycle states of the specification, in lifecycle order, and the
    text [SafeFunding.status] uses for each. *)
Inductive FundingStatus : Type :=
| NOT_FUNDED
| FUNDED_AWAITING_DEPLOYER
| DEPLOYER_FUNDED_UNCONFIRMED
| DEPLOYER_FUNDED
| DEPLOYED_UNCONFIRMED
| DEPLOYED.

Definition status_text (s : FundingStatus) : string :=
  match s with
  | NOT_FUNDED => "SAFE_WITHOUT_BALANCE"
  | FUNDED_AWAITING_DEPLOYER => "DEPLOYER_NOT_FUNDED_SAFE_WITH_BALANCE"
  | DEPLOYER_FUNDED_UNCONFIRMED => "DEPLOYER_FUNDED_UNCHECKED"
  | DEPLOYER_FUNDED => "DEPLOYER_FUNDED"
  | DEPLOYED_UNCONFIRMED => "DEPLOYED_UNCHECKED"
  | DEPLOYED => "DEPLOYED"
  end.

Definition lifecycle_rank (s : FundingStatus) : nat :=
  match s with
  | NOT_FUNDED => 0
  | FUNDED_AWAITING_DEPLOYER => 1
  | DEPLOYER_FUNDED_UNCONFIRMED => 2
  | DEPLOYER_FUNDED => 3
  | DEPLOYED_UNCONFIRMED => 4
  | DEPLOYED => 5
  end.

(** Pointwise order on recorded facts: every flag set in [f1] is set in [f2]
    and every hash recorded in [f1] is recorded (non-null) in [f2]. *)
Definition facts_le (f1 f2 : SafeFunding.t) : Prop :=
  (SafeFunding.safe_funded f1 = true -> SafeFunding.safe_funded f2 = true) /\
  (SafeFunding.deployer_funded f1 = true -> SafeFunding.deployer_funded f2 = true) /\
  (SafeFunding.deployer_funded_tx_hash f1 <> None ->
   SafeFunding.deployer_funded_tx_hash f2 <> None) /\
  (SafeFunding.safe_deployed f1 = true -> SafeFunding.safe_deployed f2 = true) /\
  (SafeFunding.safe_deployed_tx_hash f1 <> None ->
   SafeFunding.safe_deployed_tx_hash f2 <> None).

(** *** [class SafeContract(TimeStampedModel)] *)

Module SafeContract.

Record t : Type := {
  address : EthereumAddress;
  master_copy : EthereumAddress
}.

End SafeContract.

(** *** [class SafeCreation2(TimeStampedModel)] *)

Module SafeCreation2.

Record t : Type := {
  safe : EthereumAddress;
  master_copy : EthereumAddress;
  proxy_factory : EthereumAddress;
  salt_nonce : N;
  owners : list EthereumAddress;
  threshold : N;
  payment_token : option EthereumAddress;
  payment : N;
  payment_receiver : option EthereumAddress;
  setup_data : option string;
  gas_estimated : N;
  gas_price_estimated : N;
  tx_hash : option Sha3Hash;
  block_number : option Z
}.

Definition deployed (self : t) : bool :=
  match block_number self with None => false | Some _ => true end.

Definition wei_estimated_deploy_cost (self : t) : N :=
  (gas_estimated self * gas_price_estimated self)%N.

End SafeCreation2.

(** *** [class EthereumTx(models.Model)] *)

Module EthereumTx.

Record t : Type := {
  tx_hash : Sha3Hash;
  block_number : option Z;
  gas_used : option N;
  _from : option EthereumAddress;
  gas : N;
  gas_price : N;
  data : option string;
  nonce : N;
  to : option EthereumAddress;
  value : N
}.

End EthereumTx.

(** *** [class SafeMultisigTx(TimeStampedModel)]

    [safe] and [ethereum_tx] are foreign keys, kept as the key they refer to.
    The implicit row id is the position of the row in the table. *)

Module SafeMultisigTx.

Record t : Type := {
  safe : EthereumAddress;
  ethereum_tx : Sha3Hash;
  to : option EthereumAddress;
  value : N;
  data : option string;
  operation : N;
  safe_tx_gas : N;
  data_gas : N;
  gas_price : N;
  gas_token : option EthereumAddress;
  refund_receiver : option EthereumAddress;
  signatures : string;
  nonce : N;
  safe_tx_hash : option Sha3Hash
}.

(** [Meta.unique_together = (('safe', 'nonce'),)] *)
Definition unique_together (self : t) : EthereumAddress * N := (safe self, nonce self).

End SafeMultisigTx.

(** *** Query sets over the rows of [SafeMultisigTx] *)

Module QuerySet.

(** [.filter(safe=safe_address)] *)
Definition filter_safe (safe_address : EthereumAddress) (rows : list SafeMultisigTx.t)
  : list SafeMultisigTx.t :=
  List.filter (fun tx => String.eqb (SafeMultisigTx.safe tx) safe_address) rows.

Fixpoint insert_by_nonce_desc (tx : SafeMultisigTx.t) (sorted : list SafeMultisigTx.t)
  : list SafeMultisigTx.t :=
  match sorted with
  | [] => [tx]
  | y :: rest =>
      if (SafeMultisigTx.nonce y <? SafeMultisigTx.nonce tx)%N
      then tx :: y :: rest
      else y :: insert_by_nonce_desc tx rest
  end.

(** [.order_by('-nonce')]: the rows by decreasing nonce. *)
Fixpoint order_by_nonce_desc (rows : list SafeMultisigTx.t) : list SafeMultisigTx.t :=
  match rows with
  | [] => []
  | tx :: rest => insert_by_nonce_desc tx (order_by_nonce_desc rest)
  end.

(** [.first()]: the first row, or [None] on an empty query set. *)
Definition first (rows : list SafeMultisigTx.t) : option SafeMultisigTx.t :=
  match rows with
  | [] => None
  | tx :: _ => Some tx
  end.

End QuerySet.

(** *** [class SafeMultisigTxManager(models.Manager)]

    [objects] stands for the manager's rows, all rows of the table. *)

Module SafeMultisigTxManager.

Definition get_last_nonce_for_safe (objects : list SafeMultisigTx.t)
    (safe_address : EthereumAddress) : option N :=
  let tx :=
    QuerySet.first (QuerySet.order_by_nonce_desc (QuerySet.filter_safe safe_address objects)) in
  match tx with
  | Some tx => Some (SafeMultisigTx.nonce tx)
  | None => None
  end.

End SafeMultisigTxManager.

(** ** The relational store

    The tables of the declared models under the constraints the classes
    declare: primary keys, foreign keys, [unique=True] columns (any number
    of rows may hold [None]) and [unique_together]. *)

#[global] Instance Sha3Hash_countable : Countable Sha3Hash.
Proof.
  apply (inj_countable' hex_digits Build_Sha3Hash). intros [d]. reflexivity.
Defined.

Record Database : Type := {
  safe_contracts : gmap EthereumAddress SafeContract.t;
  safe_creation2s : gmap EthereumAddress SafeCreation2.t;
  safe_fundings : gmap EthereumAddress SafeFunding.t;
  ethereum_txs : gmap Sha3Hash EthereumTx.t;
  safe_multisig_txs : list SafeMultisigTx.t
}.

Definition empty_database : Database :=
  {| safe_contracts := ∅; safe_creation2s := ∅; safe_fundings := ∅;
     ethereum_txs := ∅; safe_multisig_txs := [] |}.

(** A [unique=True, null=True] column [col] of a table keyed by wallet
    address refuses the value [h] for the row [key] when another row already
    holds it; [None] is never refused. *)
Definition unique_violation {R : Type} (col : R -> option Sha3Hash)
    (table : gmap EthereumAddress R) (key : EthereumAddress) (h : option Sha3Hash) : bool :=
  match h with
  | None => false
  | Some x =>
      existsb (fun kr => negb (String.eqb (fst kr) key)
                         && bool_decide (col (snd kr) = Some x))
              (map_to_list table)
  end.

(** [SafeContract(...).save()] *)
Definition save_safe_contract (db : Database) (c : SafeContract.t) : result Database :=
  Ok {| safe_contracts := <[SafeContract.address c := c]> (safe_contracts db);
        safe_creation2s := safe_creation2s db;
        safe_fundings := safe_fundings db;
        ethereum_txs := ethereum_txs db;
        safe_multisig_txs := safe_multisig_txs db |}.

(** [SafeCreation2(...).save()]: insert, or update of the row of that wallet. *)
Definition save_safe_creation2 (db : Database) (c : SafeCreation2.t) : result Database :=
  match safe_contracts db !! SafeCreation2.safe c with
  | None => Raise IntegrityError
  | Some _ =>
      if unique_violation SafeCreation2.tx_hash (safe_creation2s db)
           (SafeCreation2.safe c) (SafeCreation2.tx_hash c)
      then Raise IntegrityError
      else
        Ok {| safe_contracts := safe_contracts db;
              safe_creation2s := <[SafeCreation2.safe c := c]> (safe_creation2s db);
              safe_fundings := safe_fundings db;
              ethereum_txs := ethereum_txs db;
              safe_multisig_txs := safe_multisig_txs db |}
  end.

(** [SafeFunding(...).save()]: insert, or update of the row of that wallet. *)
Definition save_safe_funding (db : Database) (f : SafeFunding.t) : result Database :=
  match safe_contracts db !! SafeFunding.safe f with
  | None => Raise IntegrityError
  | Some _ =>
      if unique_violation SafeFunding.deployer_funded_tx_hash (safe_fundings db)
           (SafeFunding.safe f) (SafeFunding.deployer_funded_tx_hash f)
         || unique_violation SafeFunding.safe_deployed_tx_hash (safe_fundings db)
              (SafeFunding.safe f) (SafeFunding.safe_deployed_tx_hash f)
      then Raise IntegrityError
      else
        Ok {| safe_contracts := safe_contracts db;
              safe_creation2s := safe_creation2s db;
              safe_fundings := <[SafeFunding.safe f := f]> (safe_fundings db);
              ethereum_txs := ethereum_txs db;
              safe_multisig_txs := safe_multisig_txs db |}
  end.

(** [EthereumTx.objects.create(...)]: insert under the primary key [tx_hash]. *)
Definition create_ethereum_tx (db : Database) (tx : EthereumTx.t) : result Database :=
  match ethereum_txs db !! EthereumTx.tx_hash tx with
  | Some _ => Raise IntegrityError
  | None =>
      Ok {| safe_contracts := safe_contracts db;
            safe_creation2s := safe_creation2s db;
            safe_fundings := safe_fundings db;
            ethereum_txs := <[EthereumTx.tx_hash tx := tx]> (ethereum_txs db);
            safe_multisig_txs := safe_multisig_txs db |}
  end.

(** Some row of the table already has the composite key of [tx]. *)
Definition nonce_taken (rows : list SafeMultisigTx.t) (tx : SafeMultisigTx.t) : bool :=
  existsb (fun r => String.eqb (SafeMultisigTx.safe r) (SafeMultisigTx.safe tx)
                    && (SafeMultisigTx.nonce r =? SafeMultisigTx.nonce tx)%N)
          rows.

(** Some row of the table already has the non-null [safe_tx_hash] of [tx]. *)
Definition safe_tx_hash_taken (rows : list SafeMultisigTx.t) (tx : SafeMultisigTx.t) : bool :=
  match SafeMultisigTx.safe_tx_hash tx with
  | None => false
  | Some x => existsb (fun r => bool_decide (SafeMultisigTx.safe_tx_hash r = Some x)) rows
  end.

(** [SafeMultisigTx.objects.create(...)]: insert of a new row. *)
Definition create_safe_multisig_tx (db : Database) (tx : SafeMultisigTx.t) : result Database :=
  match safe_contracts db !! SafeMultisigTx.safe tx,
        ethereum_txs db !! SafeMultisigTx.ethereum_tx tx with
  | Some _, Some _ =>
      if nonce_taken (safe_multisig_txs db) tx
         || safe_tx_hash_taken (safe_multisig_txs db) tx
      then Raise IntegrityError
      else
        Ok {| safe_contracts := safe_contracts db;
              safe_creation2s := safe_creation2s db;
              safe_fundings := safe_fundings db;
              ethereum_txs := ethereum_txs db;
              safe_multisig_txs := safe_multisig_txs db ++ [tx] |}
  | _, _ => Raise IntegrityError
  end.

(** The writes a client of the models can issue. *)
Inductive write : Type :=
| SaveSafeContract (c : SafeContract.t)
| SaveSafeCreation2 (c : SafeCreation2.t)
| SaveSafeFunding (f : SafeFunding.t)
| CreateEthereumTx (tx : EthereumTx.t)
| CreateSafeMultisigTx (tx : SafeMultisigTx.t).

Definition apply_write (db : Database) (w : write) : result Database :=
  match w with
  | SaveSafeContract c => save_safe_contract db c
  | SaveSafeCreation2 c => save_safe_creation2 db c
  | SaveSafeFunding f => save_safe_funding db f
  | CreateEthereumTx tx => create_ethereum_tx db tx
  | CreateSafeMultisigTx tx => create_safe_multisig_tx db tx
  end.

(** A refused write changes nothing. *)
Definition commit (db : Database) (w : write) : Database :=
  match apply_write db w with
  | Ok db' => db'
  | Raise _ => db
  end.

Definition run (ws : list write) (db : Database) : Database :=
  fold_left commit ws db.

(** No two rows of a table hold the same non-null value in column [col]. *)
Definition unique_column {R : Type} (col : R -> option Sha3Hash)
    (table : gmap EthereumAddress R) : Prop :=
  forall (a b : EthereumAddress) (ra rb : R) (h : Sha3Hash),
    table !! a = Some ra -> table !! b = Some rb ->
    col ra = Some h -> col rb = Some h -> a = b.

(** ** [relay/views_v2.py]: [class SafeSignalView(APIView)] *)

(** The status codes of [rest_framework.status] the view answers with. *)
Inductive HttpStatus : Type :=
| HTTP_200_OK
| HTTP_202_ACCEPTED
| HTTP_404_NOT_FOUND
| HTTP_422_UNPROCESSABLE_ENTITY.

Definition status_code (s : HttpStatus) : N :=
  match s with
  | HTTP_200_OK => 200
  | HTTP_202_ACCEPTED => 202
  | HTTP_404_NOT_FOUND => 404
  | HTTP_422_UNPROCESSABLE_ENTITY => 422
  end%N.

(** [Response(status=..., data=...)]; [data] is [None] when not given. *)
Record Response (Data : Type) : Type := {
  response_status : HttpStatus;
  response_data : option Data
}.
Arguments Build_Response {Data} _ _.
Arguments response_status {Data} _.
Arguments response_data {Data} _.

(** A queued call of a background task. *)
Inductive Task : Type :=
| deploy_create2_safe_task (safe_address : string).

(** What a request handler can read and change: the store and the task queue
    that [task.delay(...)] appends to. *)
Record World : Type := {
  database : Database;
  task_queue : list Task
}.

(** Handlers thread the world and may end in an uncaught exception. *)
Definition View (A : Type) : Type := World -> result A * World.

Definition view_ret {A : Type} (a : A) : View A := fun w => (Ok a, w).

Definition view_bind {A B : Type} (m : View A) (k : A -> View B) : View B :=
  fun w =>
    match m w with
    | (Ok a, w') => k a w'
    | (Raise e, w') => (Raise e, w')
    end.

(** [try: m  except exc: handler], the body's value passed on otherwise. *)
Definition view_try_except {A : Type} (m : View A) (exc : exn) (handler : View A) : View A :=
  fun w =>
    match m w with
    | (Ok a, w') => (Ok a, w')
    | (Raise e, w') =>
        if bool_decide (e = exc) then handler w' else (Raise e, w')
    end.

Notation "'let*' x ':=' m 'in' k" := (view_bind m (fun x => k))
  (at level 10, x name, m at level 100, k at level 200, only parsing).

(** [SafeCreation2.objects.get(safe=address)] *)
Definition SafeCreation2_objects_get (address : string) : View SafeCreation2.t :=
  fun w =>
    match safe_creation2s (database w) !! address with
    | Some c => (Ok c, w)
    | None => (Raise DoesNotExist, w)
    end.

(** [SafeContract.objects.get(address=address)] *)
Definition SafeContract_objects_get (address : string) : View SafeContract.t :=
  fun w =>
    match safe_contracts (database w) !! address with
    | Some c => (Ok c, w)
    | None => (Raise DoesNotExist, w)
    end.

(** [task.delay(...)]: the call is put at the end of the queue. *)
Definition delay (t : Task) : View unit :=
  fun w => (Ok tt, {| database := database w; task_queue := task_queue w ++ [t] |}).

(** The shape test of [eth_utils.is_hex_address]: forty hexadecimal digits
    behind an optional [0x] or [0X]. *)
Definition remove_0x_prefix (value : string) : string :=
  match value with
  | String "0" (String "x" rest) => rest
  | String "0" (String "X" rest) => rest
  | _ => value
  end.

Definition is_hexdigit (c : ascii) : bool :=
  let n := N_of_ascii c in
  (((48 <=? n) && (n <=? 57)) || ((65 <=? n) && (n <=? 70)) || ((97 <=? n) && (n <=? 102)))%N.

Fixpoint all_hexdigits (s : string) : bool :=
  match s with
  | EmptyString => true
  | String c s' => is_hexdigit c && all_hexdigits s'
  end.

Definition is_hex_address (value : string) : bool :=
  let unprefixed := remove_0x_prefix value in
  all_hexdigits unprefixed && Nat.eqb (String.length unprefixed) 40.

Section SafeSignalView.

(** [eth_utils.to_checksum_address], the EIP-55 capitalisation of an
    address; it is computed from a Keccak digest and is left open here. *)
Variable to_checksum_address : string -> string.

(** The rendering of [SafeFunding2ResponseSerializer] ([relay/serializers.py]),
    left open together with the type of what it renders to. A serializer is
    made from the instance; its [data] is read off the instance and, through
    the relations of the instance, off the store. *)
Variable Data : Type.
Variable SafeFunding2ResponseSerializer : SafeCreation2.t -> Database -> Data.

(** [Web3.isChecksumAddress] *)
Definition isChecksumAddress (value : string) : bool :=
  is_hex_address value && String.eqb value (to_checksum_address value).

Definition serializer_class : SafeCreation2.t -> Database -> Data :=
  SafeFunding2ResponseSerializer.

(** [serializer.data] *)
Definition serializer_data (serializer : Database -> Data) : View Data :=
  fun w => (Ok (serializer (database w)), w).

(** [SafeSignalView.get]: status of the safe creation. *)
Definition get (address : string) : View (Response Data) :=
  if negb (isChecksumAddress address)
  then view_ret (Build_Response HTTP_422_UNPROCESSABLE_ENTITY None)
  else
    view_try_except
      (let* safe_creation2 := SafeCreation2_objects_get address in
       let serializer := serializer_class safe_creation2 in
       let* data := serializer_data serializer in
       view_ret (Build_Response HTTP_200_OK (Some data)))
      DoesNotExist
      (view_ret (Build_Response HTTP_404_NOT_FOUND None)).

(** [SafeSignalView.put]: force check of a safe balance to start the safe
    creation. The [try] covers the lookup alone and its handler returns from
    the method; [found] tells which way the [try] ended. *)
Definition put (address : string) : View (Response Data) :=
  if negb (isChecksumAddress address)
  then view_ret (Build_Response HTTP_422_UNPROCESSABLE_ENTITY None)
  else
    let* found := view_try_except
                    (let* safe_contract := SafeContract_objects_get address in
                     view_ret true)
                    DoesNotExist
                    (view_ret false) in
    if found : bool
    then
      let* queued := delay (deploy_create2_safe_task address) in
      view_ret (Build_Response HTTP_202_ACCEPTED None)
    else view_ret (Build_Response HTTP_404_NOT_FOUND None).

End SafeSignalView.

(** *** The reply of the status request

    The view imports [SafeFunding2ResponseSerializer] from
    [relay/serializers.py], a module whose source is not at hand here. The
    definitions below stand for the class. *)

Module SafeFunding2Response.

(** Modelled from the spec: the fields of the serializer class
    [SafeFunding2ResponseSerializer], whose declaration is missing. The
    specification gives the reply of the status request as
    [{funding_status, submission_tx_hash?, block_number?}]: a funding status,
    with a submission transaction hash and a block number that may each be
    absent. *)
Record t : Type := {
  funding_status : string;
  submission_tx_hash : option Sha3Hash;
  block_number : option Z
}.

End SafeFunding2Response.

(** [SafeFunding(safe=safe)]: a funding record with the defaults its fields
    declare, [default=False] for the flags and null for the hashes. It is the
    record of a wallet on which no fact has been observed yet. *)
Definition SafeFunding_defaults (safe : EthereumAddress) : SafeFunding.t :=
  {| SafeFunding.safe := safe;
     SafeFunding.safe_funded := false;
     SafeFunding.deployer_funded := false;
     SafeFunding.deployer_funded_tx_hash := None;
     SafeFunding.safe_deployed := false;
     SafeFunding.safe_deployed_tx_hash := None |}.

(** Modelled from the spec: the facts observed about a wallet, from which the
    specification derives its funding status. They are the funding record
    stored for the wallet and, while none is stored, the record with the
    declared defaults, the first state of the lifecycle. *)
Definition funding_facts (db : Database) (safe : EthereumAddress) : SafeFunding.t :=
  default (SafeFunding_defaults safe) (safe_fundings db !! safe).

(** Modelled from the spec: the rendering of the serializer class
    [SafeFunding2ResponseSerializer], whose declaration is missing, for a
    deployment intent. Following the specification, the reply carries the
    funding status of the wallet of the intent, which is a status derived
    from the facts observed about the wallet and is [SafeFunding.status]
    here, together with the submission transaction hash and the block number
    of the intent as they are stored, absent when the column is null. *)
Definition spec_SafeFunding2ResponseSerializer (safe_creation2 : SafeCreation2.t)
    (db : Database) : SafeFunding2Response.t :=
  {| SafeFunding2Response.funding_status :=
       SafeFunding.status (funding_facts db (SafeCreation2.safe safe_creation2));
     SafeFunding2Response.submission_tx_hash := SafeCreation2.tx_hash safe_creation2;
     SafeFunding2Response.block_number := SafeCreation2.block_number safe_creation2 |}.

(** ** [safe/redis_service.py]: [class RedisService]

    Objects live in a heap and are named by their identity. The class
    attribute [RedisService.instance] is absent until the first
    construction. *)

Module RedisService.

Inductive PyObject : Type :=
| RedisService_object (redis : option nat)
| Redis_object (url : string).

Record Interp : Type := {
  heap : gmap nat PyObject;
  next_id : nat;
  instance : option nat
}.

Definition State (A : Type) : Type := Interp -> A * Interp.

(** A new object; its identity is returned. *)
Definition alloc (o : PyObject) : State nat :=
  fun s => (next_id s,
            {| heap := <[next_id s := o]> (heap s);
               next_id := S (next_id s);
               instance := instance s |}).

(** [super().__new__(cls)]: a new object with no attribute set. *)
Definition object_new : State nat := alloc (RedisService_object None).

(** [Redis.from_url(url)]: a new client object. *)
Definition Redis_from_url (url : string) : State nat := alloc (Redis_object url).

(** [__new__(cls)]: [hasattr(cls, 'instance')] holds when the class attribute
    is set; when it is not, a new object is created and stored in it. The
    attribute is what is returned. *)
Definition __new__ : State nat :=
  fun s =>
    match instance s with
    | None =>
        let '(o, s') := object_new s in
        (o, {| heap := heap s'; next_id := next_id s'; instance := Some o |})
    | Some o => (o, s)
    end.

(** [self.redis = Redis.from_url(settings.REDIS_URL)] *)
Definition __init__ (REDIS_URL : string) (self : nat) : State unit :=
  fun s =>
    let '(c, s') := Redis_from_url REDIS_URL s in
    (tt, {| heap := <[self := RedisService_object (Some c)]> (heap s');
            next_id := next_id s';
            instance := instance s' |}).

(** The call [RedisService()]: [__new__], then [__init__] on what it returned. *)
Definition RedisService (REDIS_URL : string) : State nat :=
  fun s =>
    let '(self, s1) := __new__ s in
    let '(_, s2) := __init__ REDIS_URL self s1 in
    (self, s2).

(** What the rest of the process does to the heap between two looks at it:
    it constructs the service again, or creates some other object. *)
Inductive step : Type :=
| Construct
| Allocate (o : PyObject).

Definition exec_step (REDIS_URL : string) (s : Interp) (st : step) : Interp :=
  match st with
  | Construct => snd (RedisService REDIS_URL s)
  | Allocate o => snd (alloc o s)
  end.

Definition exec (REDIS_URL : string) (steps : list step) (s : Interp) : Interp :=
  fold_left (exec_step REDIS_URL) steps s.

(** A freshly started interpreter. *)
Definition startup : Interp := {| heap := ∅; next_id := 0; instance := None |}.

(** Identities not yet handed out name no object, and the class attribute,
    when set, names a [RedisService] object. *)
Definition well_formed (s : Interp) : Prop :=
  (forall i, next_id s <= i -> heap s !! i = None) /\
  (forall o, instance s = Some o ->
     exists r, heap s !! o = Some (RedisService_object r)).

End RedisService.

(** ** Invariants of the store *)

(** The first row carries the largest nonce of the list. *)
Definition head_is_max (l : list SafeMultisigTx.t) : Prop :=
  forall y rest, l = y :: rest ->
    forall x, In x l -> (SafeMultisigTx.nonce x <= SafeMultisigTx.nonce y)%N.

(** No two rows of [SafeMultisigTx] have the same (wallet, nonce). *)
Definition multisig_keys_unique (db : Database) : Prop :=
  List.NoDup (map SafeMultisigTx.unique_together (safe_multisig_txs db)).

(** Each of the three [unique=True] hash columns is free of repeats. *)
Definition hashes_unique (db : Database) : Prop :=
  unique_column SafeCreation2.tx_hash (safe_creation2s db) /\
  unique_column SafeFunding.deployer_funded_tx_hash (safe_fundings db) /\
  unique_column SafeFunding.safe_deployed_tx_hash (safe_fundings db).

(** ** Sample records *)

Definition sample_address : EthereumAddress := "0x5aAeb6053F3E94C9b9A09f33669435E7Ef1BeAed".

Definition other_address : EthereumAddress := "0xfB6916095ca1df60bB79Ce92cE3Ea74c37c5d359".

Definition master_copy_address : EthereumAddress := "0xdbF03B407c01E7cD3CBea99509d93f8DDDC8C6FB".

Definition factory_address : EthereumAddress := "0xD1220A0cf47c7B9Be7A2E6BA89F429762e7b9aDb".

Definition sample_hash_1 : Sha3Hash :=
  {| hex_digits := "88df016429689c079f3b2f6ad39fa052532c56795b733da78a91ebe6a713944b" |}.

Definition sample_hash_2 : Sha3Hash :=
  {| hex_digits := "b903239f8543d04b5dc1ba6579132b143087c68db1b2168786408fcbce568238" |}.

Definition sample_contract : SafeContract.t :=
  {| SafeContract.address := sample_address;
     SafeContract.master_copy := master_copy_address |}.

Definition other_contract : SafeContract.t :=
  {| SafeContract.address := other_address;
     SafeContract.master_copy := master_copy_address |}.

(** The deployment intent of [sample_address] with the given submission hash. *)
Definition sample_creation (tx_hash : option Sha3Hash) : SafeCreation2.t :=
  {| SafeCreation2.safe := sample_address;
     SafeCreation2.master_copy := master_copy_address;
     SafeCreation2.proxy_factory := factory_address;
     SafeCreation2.salt_nonce := 7;
     SafeCreation2.owners := [other_address];
     SafeCreation2.threshold := 1;
     SafeCreation2.payment_token := None;
     SafeCreation2.payment := 1000;
     SafeCreation2.payment_receiver := None;
     SafeCreation2.setup_data := None;
     SafeCreation2.gas_estimated := 21000;
     SafeCreation2.gas_price_estimated := 3;
     SafeCreation2.tx_hash := tx_hash;
     SafeCreation2.block_number := None |}.

(** The deployment intent of [other_address], not yet submitted. *)
Definition other_creation : SafeCreation2.t :=
  {| SafeCreation2.safe := other_address;
     SafeCreation2.master_copy := master_copy_address;
     SafeCreation2.proxy_factory := factory_address;
     SafeCreation2.salt_nonce := 8;
     SafeCreation2.owners := [sample_address];
     SafeCreation2.threshold := 1;
     SafeCreation2.payment_token := None;
     SafeCreation2.payment := 1000;
     SafeCreation2.payment_receiver := None;
     SafeCreation2.setup_data := None;
     SafeCreation2.gas_estimated := 21000;
     SafeCreation2.gas_price_estimated := 3;
     SafeCreation2.tx_hash := None;
     SafeCreation2.block_number := None |}.

Definition sample_ethereum_tx : EthereumTx.t :=
  {| EthereumTx.tx_hash := sample_hash_1;
     EthereumTx.block_number := None;
     EthereumTx.gas_used := None;
     EthereumTx._from := Some other_address;
     EthereumTx.gas := 21000;
     EthereumTx.gas_price := 3;
     EthereumTx.data := None;
     EthereumTx.nonce := 0;
     EthereumTx.to := Some sample_address;
     EthereumTx.value := 0 |}.

(** A multisig transaction of the given wallet with the given nonce. *)
Definition sample_multisig_tx (safe : EthereumAddress) (nonce : N) : SafeMultisigTx.t :=
  {| SafeMultisigTx.safe := safe;
     SafeMultisigTx.ethereum_tx := sample_hash_1;
     SafeMultisigTx.to := Some other_address;
     SafeMultisigTx.value := 0;
     SafeMultisigTx.data := None;
     SafeMultisigTx.operation := 0;
     SafeMultisigTx.safe_tx_gas := 0;
     SafeMultisigTx.data_gas := 0;
     SafeMultisigTx.gas_price := 0;
     SafeMultisigTx.gas_token := None;
     SafeMultisigTx.refund_receiver := None;
     SafeMultisigTx.signatures := "";
     SafeMultisigTx.nonce := nonce;
     SafeMultisigTx.safe_tx_hash := None |}.

(** A store holding [sample_address] with its deployment intent, and a
    world around it with nothing queued. *)
Definition sample_database : Database :=
  run [SaveSafeContract sample_contract;
       SaveSafeCreation2 (sample_creation (Some sample_hash_1))]
      empty_database.

Definition sample_world : World :=
  {| database := sample_database; task_queue := [] |}.

(** An address two digits short. *)
Definition short_address : string := "0x5aAeb6053F3E94C9b9A09f33669435E7Ef1BeA".

(** A rendering that keeps the submission hash and the block number. *)
Definition hash_and_block (c : SafeCreation2.t) (db : Database)
  : option Sha3Hash * option Z :=
  (SafeCreation2.tx_hash c, SafeCreation2.block_number c).

(** A wallet whose deployer funding was submitted, and the same wallet once
    that funding is marked mined and the deployment was submitted. *)
Definition funding_submitted : SafeFunding.t :=
  {| SafeFunding.safe := sample_address;
     SafeFunding.safe_funded := true;
     SafeFunding.deployer_funded := false;
     SafeFunding.deployer_funded_tx_hash := Some sample_hash_1;
     SafeFunding.safe_deployed := false;
     SafeFunding.safe_deployed_tx_hash := None |}.

Definition deployment_submitted : SafeFunding.t :=
  {| SafeFunding.safe := sample_address;
     SafeFunding.safe_funded := true;
     SafeFunding.deployer_funded := true;
     SafeFunding.deployer_funded_tx_hash := Some sample_hash_1;
     SafeFunding.safe_deployed := false;
     SafeFunding.safe_deployed_tx_hash := Some sample_hash_2 |}.

(** A wallet marked deployed and deployer-funded with no hash recorded, and
    one marked deployer-funded only, again with no hash recorded. *)
Definition deployed_without_hashes : SafeFunding.t :=
  {| SafeFunding.safe := sample_address;
     SafeFunding.safe_funded := true;
     SafeFunding.deployer_funded := true;
     SafeFunding.deployer_funded_tx_hash := None;
     SafeFunding.safe_deployed := true;
     SafeFunding.safe_deployed_tx_hash := None |}.

Definition deployer_funded_without_hashes : SafeFunding.t :=
  {| SafeFunding.safe := sample_address;
     SafeFunding.safe_funded := true;
     SafeFunding.deployer_funded := true;
     SafeFunding.deployer_funded_tx_hash := None;
     SafeFunding.safe_deployed := false;
     SafeFunding.safe_deployed_tx_hash := None |}.

(** The funding record of [other_address] with the given hashes. *)
Definition other_funding (deployer_hash deploy_hash : option Sha3Hash) : SafeFunding.t :=
  {| SafeFunding.safe := other_address;
     SafeFunding.safe_funded := true;
     SafeFunding.deployer_funded := false;
     SafeFunding.deployer_funded_tx_hash := deployer_hash;
     SafeFunding.safe_deployed := false;
     SafeFunding.safe_deployed_tx_hash := deploy_hash |}.

(** A world whose store also holds the funding record of [sample_address],
    with the deployment submitted under the hash the intent records. *)
Definition funded_world : World :=
  {| database :=
       run [SaveSafeContract sample_contract;
            SaveSafeCreation2 (sample_creation (Some sample_hash_2));
            SaveSafeFunding deployment_submitted]
           empty_database;
     task_queue := [] |}.

(** The address the Redis client is made from. *)
Definition sample_redis_url : string := "redis://localhost:6379/0".

(** ** More of [relay/models.py]: manager queries and [__str__] methods

    A manager's [objects] are all rows of its table, in some order.
    [select_related] only changes how rows are fetched and is left out. *)

Definition is_None {A : Type} (v : option A) : bool :=
  match v with None => true | Some _ => false end.

(** *** [class SafeCreation2Manager(models.Manager)] *)

Module SafeCreation2Manager.

(** [.exclude(tx_hash=None).filter(block_number=None)] *)
Definition pending_to_check (objects : list SafeCreation2.t) : list SafeCreation2.t :=
  List.filter (fun c => is_None (SafeCreation2.block_number c))
    (List.filter (fun c => negb (is_None (SafeCreation2.tx_hash c))) objects).

(** [.exclude(tx_hash=None, block_number=None)]: the rows on which the two
    conditions do not hold together. *)
Definition deployed_and_checked (objects : list SafeCreation2.t) : list SafeCreation2.t :=
  List.filter (fun c => negb (is_None (SafeCreation2.tx_hash c)
                              && is_None (SafeCreation2.block_number c)))
    objects.

End SafeCreation2Manager.

(** *** [class SafeFundingManager(models.Manager)] *)

Module SafeFundingManager.

(** [.filter(safe_deployed=False).filter(deployer_funded=True)] *)
Definition pending_just_to_deploy (objects : list SafeFunding.t) : list SafeFunding.t :=
  List.filter (fun f => Bool.eqb (SafeFunding.deployer_funded f) true)
    (List.filter (fun f => Bool.eqb (SafeFunding.safe_deployed f) false) objects).

(** [.filter(safe_deployed=False)] *)
Definition not_deployed (objects : list SafeFunding.t) : list SafeFunding.t :=
  List.filter (fun f => Bool.eqb (SafeFunding.safe_deployed f) false) objects.

End SafeFundingManager.

(** *** [class SafeContractManager(models.Manager)] *)

Module SafeContractManager.

(** [~Q(safecreation2__block_number=None)] on the row joined to the
    contract: false when the contract has no [SafeCreation2] row. *)
Definition creation2_has_block_number (db : Database) (c : SafeContract.t) : bool :=
  match safe_creation2s db !! SafeContract.address c with
  | Some creation => negb (is_None (SafeCreation2.block_number creation))
  | None => false
  end.

(** [Q(safefunding__safe_deployed=True)] on the row joined to the contract. *)
Definition safefunding_safe_deployed (db : Database) (c : SafeContract.t) : bool :=
  match safe_fundings db !! SafeContract.address c with
  | Some funding => Bool.eqb (SafeFunding.safe_deployed funding) true
  | None => false
  end.

Definition deployed (db : Database) : list SafeContract.t :=
  List.filter (fun c => creation2_has_block_number db c || safefunding_safe_deployed db c)
    (map snd (map_to_list (safe_contracts db))).

End SafeContractManager.

(** *** [class SafeTxStatus(models.Model)] and its manager *)

Module SafeTxStatus.

Record t : Type := {
  safe : EthereumAddress;
  initial_block_number : Z;
  tx_block_number : Z;
  erc_20_block_number : Z
}.

End SafeTxStatus.

Module SafeTxStatusManager.

(** [.filter(safe__in=SafeContract.objects.deployed())] *)
Definition deployed (db : Database) (objects : list SafeTxStatus.t) : list SafeTxStatus.t :=
  List.filter
    (fun st => existsb (fun c => String.eqb (SafeContract.address c) (SafeTxStatus.safe st))
                       (SafeContractManager.deployed db))
    objects.

End SafeTxStatusManager.

(** *** [__str__] methods

    A related [safe] prints as its address ([SafeContract.__str__]), and the
    foreign key of a row is that address. Integers print in decimal. *)

Definition SafeContract__str__ (self : SafeContract.t) : string :=
  SafeContract.address self.

(** Truth value of an [Optional[int]]: [None] and [0] are false. *)
Definition opt_int_truthy (v : option Z) : bool :=
  match v with None => false | Some n => negb (n =? 0)%Z end.

(** [str(v)] for an [Optional[int]], as [format] prints it. *)
Definition opt_int_str (v : option Z) : string :=
  match v with Some n => pretty n | None => "None" end.

Definition SafeCreation2__str__ (self : SafeCreation2.t) : string :=
  if opt_int_truthy (SafeCreation2.block_number self)
  then "Safe " ++ SafeCreation2.safe self ++ " - Deployed on block number "
       ++ opt_int_str (SafeCreation2.block_number self)
  else "Safe " ++ SafeCreation2.safe self.

Definition SafeFunding__str__ (self : SafeFunding.t) : string :=
  let s := "Safe " ++ SafeFunding.safe self ++ " - " in
  if SafeFunding.safe_deployed self then s ++ "deployed"
  else if hash_truthy (SafeFunding.safe_deployed_tx_hash self)
  then s ++ "deployed but not checked"
  else if SafeFunding.deployer_funded self then s ++ "with deployer funded"
  else if hash_truthy (SafeFunding.deployer_funded_tx_hash self)
  then s ++ "with deployer funded but not checked"
  else if SafeFunding.safe_funded self
  then s ++ "has enough balance, but deployer is not funded yet"
  else "Safe " ++ SafeFunding.safe self.

(** What [SafeFunding.__str__] puts behind the address for each text that
    [SafeFunding.status] can return. *)
Definition status_description (status : string) : string :=
  if String.eqb status "DEPLOYED" then " - deployed"
  else if String.eqb status "DEPLOYED_UNCHECKED" then " - deployed but not checked"
  else if String.eqb status "DEPLOYER_FUNDED" then " - with deployer funded"
  else if String.eqb status "DEPLOYER_FUNDED_UNCHECKED"
  then " - with deployer funded but not checked"
  else if String.eqb status "DEPLOYER_NOT_FUNDED_SAFE_WITH_BALANCE"
  then " - has enough balance, but deployer is not funded yet"
  else "".

(** ** Further invariants of the store *)

(** Rows are filed under their own primary key, the wallet of every
    deployment intent, funding record and multisig transaction is a stored
    contract, and the chain transaction of every multisig transaction is a
    stored [EthereumTx]. *)
Definition referential_integrity (db : Database) : Prop :=
  (forall k c, safe_contracts db !! k = Some c -> SafeContract.address c = k) /\
  (forall k c, safe_creation2s db !! k = Some c ->
     SafeCreation2.safe c = k /\ is_Some (safe_contracts db !! k)) /\
  (forall k f, safe_fundings db !! k = Some f ->
     SafeFunding.safe f = k /\ is_Some (safe_contracts db !! k)) /\
  (forall k tx, ethereum_txs db !! k = Some tx -> EthereumTx.tx_hash tx = k) /\
  (forall tx, In tx (safe_multisig_txs db) ->
     is_Some (safe_contracts db !! SafeMultisigTx.safe tx) /\
     is_Some (ethereum_txs db !! SafeMultisigTx.ethereum_tx tx)).

(** The non-null [safe_tx_hash] values of the multisig rows, in row order. *)
Definition safe_tx_hashes (db : Database) : list Sha3Hash :=
  omap SafeMultisigTx.safe_tx_hash (safe_multisig_txs db).

(** A world after some writes on an empty store, with the given queue. *)
Definition world_after (ws : list write) (queue : list Task) : World :=
  {| database := run ws empty_database; task_queue := queue |}.

(** A store where [sample_address] holds the multisig transaction with nonce
    0, and the same store after the one with nonce 1 was inserted. *)
Definition nonce_zero_database : Database :=
  run [SaveSafeContract sample_contract; CreateEthereumTx sample_ethereum_tx;
       CreateSafeMultisigTx (sample_multisig_tx sample_address 0)]
      empty_database.

Definition nonce_one_database : Database :=
  commit nonce_zero_database (CreateSafeMultisigTx (sample_multisig_tx sample_address 1)).

(** ** [EthereumTxManager.create_from_tx]

    The [tx] argument is a dict; each of the entries the method reads is
    present with a value or absent. [tx[key]] raises [KeyError] on an absent
    entry, [tx.get(key)] gives [None]. *)

Module EthereumTxManager.

Record TxDict : Type := {
  tx_from : option (option EthereumAddress);
  tx_gas : option N;
  tx_gasPrice : option N;
  tx_data : option string;
  tx_nonce : option N;
  tx_to : option (option EthereumAddress);
  tx_value : option N
}.

(** What the call can raise. *)
Inductive error : Type :=
| KeyError (key : string)
| HexBytesError
| StoreError (e : exn).

(** [tx[key]] *)
Definition getitem {A : Type} (key : string) (entry : option A) : error + A :=
  match entry with
  | Some v => inr v
  | None => inl (KeyError key)
  end.

(** [tx.get(key)] on an entry whose value may be [None]. *)
Definition dict_get {A : Type} (entry : option (option A)) : option A :=
  match entry with
  | Some v => v
  | None => None
  end.

Section CreateFromTx.

(** [HexBytes(value)], the bytes a hexadecimal text stands for; [None] when
    the constructor raises. It belongs to the [hexbytes] package. *)
Variable HexBytes : string -> option string.

Definition create_from_tx (db : Database) (tx : TxDict) (tx_hash : Sha3Hash)
    (block_number : option Z) : error + Database :=
  match getitem "from" (tx_from tx) with
  | inl e => inl e
  | inr _from =>
  match getitem "gas" (tx_gas tx) with
  | inl e => inl e
  | inr gas =>
  match getitem "gasPrice" (tx_gasPrice tx) with
  | inl e => inl e
  | inr gas_price =>
  match getitem "data" (tx_data tx) with
  | inl e => inl e
  | inr raw_data =>
  match HexBytes raw_data with
  | None => inl HexBytesError
  | Some data =>
  match getitem "nonce" (tx_nonce tx) with
  | inl e => inl e
  | inr nonce =>
  let to := dict_get (tx_to tx) in
  match getitem "value" (tx_value tx) with
  | inl e => inl e
  | inr value =>
      match create_ethereum_tx db
              {| EthereumTx.tx_hash := tx_hash;
                 EthereumTx.block_number := block_number;
                 EthereumTx.gas_used := None;
                 EthereumTx._from := _from;
                 EthereumTx.gas := gas;
                 EthereumTx.gas_price := gas_price;
                 EthereumTx.data := Some data;
                 EthereumTx.nonce := nonce;
                 EthereumTx.to := to;
                 EthereumTx.value := value |} with
      | Ok db' => inr db'
      | Raise e => inl (StoreError e)
      end
  end end end end end end end.

End CreateFromTx.

(** The entries of [tx] that must be present, in the order they are read. *)
Definition first_missing_key (tx : TxDict) : option string :=
  if is_None (tx_from tx) then Some "from"
  else if is_None (tx_gas tx) then Some "gas"
  else if is_None (tx_gasPrice tx) then Some "gasPrice"
  else if is_None (tx_data tx) then Some "data"
  else if is_None (tx_nonce tx) then Some "nonce"
  else if is_None (tx_value tx) then Some "value"
  else None.

(** [tx] with its [to] entry replaced. *)
Definition with_to (tx : TxDict) (to : option (option EthereumAddress)) : TxDict :=
  {| tx_from := tx_from tx; tx_gas := tx_gas tx; tx_gasPrice := tx_gasPrice tx;
     tx_data := tx_data tx; tx_nonce := tx_nonce tx; tx_to := to;
     tx_value := tx_value tx |}.

(** A transfer as the node reports it, and a decoder that takes the text as
    it is. *)
Definition sample_tx : TxDict :=
  {| tx_from := Some (Some other_address);
     tx_gas := Some 21000%N;
     tx_gasPrice := Some 3%N;
     tx_data := Some "0x";
     tx_nonce := Some 5%N;
     tx_to := None;
     tx_value := Some 1000%N |}.

Definition sample_HexBytes (value : string) : option string := Some value.

End EthereumTxManager.

(** ** [tokens/management/commands/add_token.py]: [Command.handle]

    The command works on the token table, writes to [self.stdout] and, when
    it has to ask, reads a line from the terminal. A [Token] is keyed by its
    address; [create] fills in the four columns the command passes. *)

Module AddToken.

Record Token : Type := {
  address : string;
  name : string;
  symbol : string;
  decimals : N
}.

(** What [erc20.get_info] returns. *)
Record Erc20Info : Type := {
  info_name : string;
  info_symbol : string;
  info_decimals : N
}.

(** A line written through [self.stdout.write], with the style applied. *)
Inductive Message : Type :=
| WARNING (text : string)
| SUCCESS (text : string)
| ERROR (text : string).

Record State : Type := {
  tokens : gmap string Token;
  stdout : list Message;
  stdin : list string
}.

(** What ends the command early: [toChecksumAddress] refusing its argument,
    or [input] finding no line to read. *)
Inductive abort : Type :=
| InvalidAddress
| EOFError.

(** [str.isspace] on a character below 256. *)
Definition is_space (c : ascii) : bool :=
  let n := N_of_ascii c in
  (((9 <=? n) && (n <=? 13)) || ((28 <=? n) && (n <=? 32))
   || (n =? 133) || (n =? 160))%N.

Fixpoint lstrip (s : string) : string :=
  match s with
  | String c rest => if is_space c then lstrip rest else s
  | EmptyString => EmptyString
  end.

Fixpoint string_rev_onto (s acc : string) : string :=
  match s with
  | String c rest => string_rev_onto rest (String c acc)
  | EmptyString => acc
  end.

Definition string_rev (s : string) : string := string_rev_onto s "".

Definition rstrip (s : string) : string := string_rev (lstrip (string_rev s)).

(** [str.strip()] *)
Definition strip (s : string) : string := rstrip (lstrip s).

(** [Token.objects.create(address=..., name=info.name, ...)] *)
Definition token_of_info (token_address : string) (info : Erc20Info) : Token :=
  {| address := token_address;
     name := info_name info;
     symbol := info_symbol info;
     decimals := info_decimals info |}.

Definition stdout_write (m : Message) (s : State) : State :=
  {| tokens := tokens s; stdout := stdout s ++ [m]; stdin := stdin s |}.

Section Handle.

(** [ethereum_client.w3.toChecksumAddress]; [None] when it raises. *)
Variable toChecksumAddress : string -> option string.

(** [ethereum_client.erc20.get_info]; [None] when it raises
    [InvalidERC20Info]. *)
Variable get_info : string -> option Erc20Info.

(** The body of the loop for one argument. *)
Definition handle_token (no_prompt : bool) (token_address : string) (s : State)
  : option abort * State :=
  match toChecksumAddress token_address with
  | None => (Some InvalidAddress, s)
  | Some token_address =>
      match tokens s !! token_address with
      | Some token =>
          (None,
           stdout_write (WARNING ("Token " ++ name token ++ " - " ++ symbol token
                           ++ " with address " ++ token_address ++ " already exists")) s)
      | None =>
          match get_info token_address with
          | None =>
              (None,
               stdout_write (ERROR ("Token with address " ++ token_address ++ " is not valid")) s)
          | Some info =>
              let asked :=
                if no_prompt then Some ("y", s)
                else
                  match stdin s with
                  | [] => None
                  | line :: rest =>
                      Some (lower (strip line),
                            {| tokens := tokens s; stdout := stdout s; stdin := rest |})
                  end in
              match asked with
              | None => (Some EOFError, s)
              | Some (response, s1) =>
                  if String.eqb response "y"
                  then
                    (None,
                     stdout_write (SUCCESS ("Created token " ++ info_name info ++ " on address "
                                     ++ token_address))
                       {| tokens := <[token_address := token_of_info token_address info]>
                                      (tokens s1);
                          stdout := stdout s1;
                          stdin := stdin s1 |})
                  else (None, s1)
              end
          end
      end
  end.

(** [for token_address in tokens: ...]; an exception ends the loop. *)
Fixpoint handle_loop (no_prompt : bool) (token_addresses : list string) (s : State)
  : option abort * State :=
  match token_addresses with
  | [] => (None, s)
  | token_address :: rest =>
      match handle_token no_prompt token_address s with
      | (Some e, s') => (Some e, s')
      | (None, s') => handle_loop no_prompt rest s'
      end
  end.

(** [handle], given the options [tokens] and [no_prompt]. *)
Definition handle (token_addresses : list string) (no_prompt : bool) (s : State)
  : option abort * State :=
  handle_loop no_prompt token_addresses s.

End Handle.

(** A registry that knows two tokens by their addresses. *)
Definition sample_get_info (token_address : string) : option Erc20Info :=
  if String.eqb token_address "0x6B175474E89094C44Da98b954EedeAC495271d0F"
  then Some {| info_name := "Dai Stablecoin"; info_symbol := "DAI"; info_decimals := 18 |}
  else if String.eqb token_address "0xA0b86991c6218b36c1d19D4a2e9Eb0cE3606eB48"
  then Some {| info_name := "USD Coin"; info_symbol := "USDC"; info_decimals := 6 |}
  else None.

Definition sample_checksum (token_address : string) : option string :=
  if is_hex_address token_address then Some token_address else None.

Definition empty_state (lines : list string) : State :=
  {| tokens := ∅; stdout := []; stdin := lines |}.

End AddToken.

(** Two token addresses the sample registry knows and one it does not. *)
Definition dai_address : string := "0x6B175474E89094C44Da98b954EedeAC495271d0F".

Definition usdc_address : string := "0xA0b86991c6218b36c1d19D4a2e9Eb0cE3606eB48".

Definition unknown_token_address : string := "0xdbF03B407c01E7cD3CBea99509d93f8DDDC8C6FB".

Definition dai_token : AddToken.Token :=
  {| AddToken.address := dai_address;
     AddToken.name := "Dai Stablecoin";
     AddToken.symbol := "DAI";
     AddToken.decimals := 18 |}.

(** A table that already holds the first token, under a name of its own. *)
Definition renamed_dai_token : AddToken.Token :=
  {| AddToken.address := dai_address;
     AddToken.name := "Dai";
     AddToken.symbol := "DAI";
     AddToken.decimals := 18 |}.

Definition state_with_dai : AddToken.State :=
  {| AddToken.tokens := {[ dai_address := renamed_dai_token ]};
     AddToken.stdout := [];
     AddToken.stdin := [] |}.


(** * Properties *)

(** ** Text helpers *)

Lemma chr_lower_of_lower (d : ascii) :
  is_ascii_lower d = true -> chr_lower d = d.
Proof.
  unfold is_ascii_lower, chr_lower; cbv zeta; intros Hd.
  destruct (_ || _)%bool eqn:E; [|reflexivity].
  exfalso. revert Hd E.
  rewrite !andb_true_iff, orb_true_iff, !andb_true_iff, !N.leb_le. lia.
Qed.

Lemma N_of_ascii_upper (d : ascii) :
  is_ascii_lower d = true -> N_of_ascii (ascii_upper d) = (N_of_ascii d - 32)%N.
Proof.
  intros Hd. unfold ascii_upper. rewrite Hd.
  apply N_ascii_embedding. pose proof (N_ascii_bounded d). lia.
Qed.

Lemma chr_lower_of_upper (d : ascii) :
  is_ascii_lower d = true -> chr_lower (ascii_upper d) = d.
Proof.
  intros Hd. unfold chr_lower; cbv zeta. rewrite (N_of_ascii_upper d Hd).
  unfold is_ascii_lower in Hd; cbv zeta in Hd.
  rewrite andb_true_iff, !N.leb_le in Hd.
  replace ((65 <=? N_of_ascii d - 32) && (N_of_ascii d - 32 <=? 90))%N with true.
  - cbn [orb]. replace (N_of_ascii d - 32 + 32)%N with (N_of_ascii d) by lia.
    apply ascii_N_embedding.
  - symmetry. rewrite andb_true_iff, !N.leb_le. lia.
Qed.

Lemma chr_lower_inv (c d : ascii) :
  is_ascii_lower d = true -> chr_lower c = d -> c = d \/ c = ascii_upper d.
Proof.
  intros Hd. unfold chr_lower; cbv zeta.
  destruct (_ || _)%bool eqn:E; [|auto].
  intros Hc. right.
  pose proof (N_ascii_bounded c) as Hb.
  assert (Hn : (N_of_ascii c + 32 = N_of_ascii d)%N).
  { rewrite <- Hc. symmetry. apply N_ascii_embedding.
    revert E. rewrite orb_true_iff, !andb_true_iff, !N.leb_le. lia. }
  unfold ascii_upper. rewrite Hd, <- Hn.
  replace (N_of_ascii c + 32 - 32)%N with (N_of_ascii c) by lia.
  symmetry. apply ascii_N_embedding.
Qed.

Lemma casing_of_lower (w s : string) :
  all_lower w = true -> casing_of w s -> lower s = w.
Proof.
  intros Hw Hc. induction Hc as [|c w s _ IH|c w s Hl _ IH]; cbn in *.
  - reflexivity.
  - apply andb_true_iff in Hw as [Hc Hw].
    rewrite (chr_lower_of_lower c Hc), (IH Hw). reflexivity.
  - apply andb_true_iff in Hw as [_ Hw].
    rewrite (chr_lower_of_upper c Hl), (IH Hw). reflexivity.
Qed.

Lemma lower_casing_of (s w : string) :
  all_lower w = true -> lower s = w -> casing_of w s.
Proof.
  revert w. induction s as [|c s IH]; intros w Hw <-; cbn in *.
  - constructor.
  - apply andb_true_iff in Hw as [Hc Hw].
    destruct (chr_lower_inv c _ Hc eq_refl) as [E|E].
    + rewrite <- E. constructor. now apply IH.
    + rewrite E at 2. constructor; [assumption|]. now apply IH.
Qed.

Lemma lower_iff_casing (w s : string) :
  all_lower w = true -> lower s = w <-> casing_of w s.
Proof.
  intros Hw. split; [apply lower_casing_of | apply casing_of_lower]; assumption.
Qed.

(** ** [EthereumTxCallType.parse_call_type] *)

Section ParseCallType.

Import EthereumTxCallType.

Lemma parse_call_type_str (s : string) :
  parse_call_type (Some s) =
  Ok (if String.eqb (lower s) "call" then Some CALL
      else if String.eqb (lower s) "delegatecall" then Some DELEGATE_CALL
      else None).
Proof.
  unfold parse_call_type. destruct s as [|c s]; [reflexivity|].
  cbn [opt_str_truthy str_truthy negb call_lower mbind result_bind].
  destruct (String.eqb _ "call"); [reflexivity|].
  destruct (String.eqb _ "delegatecall"); reflexivity.
Qed.

Example parse_call_type_call : parse_call_type (Some "call") = Ok (Some CALL).
Proof. reflexivity. Qed.

Example parse_call_type_mixed : parse_call_type (Some "DelegateCall") = Ok (Some DELEGATE_CALL).
Proof. reflexivity. Qed.

Example parse_call_type_other : parse_call_type (Some "create") = Ok None.
Proof. reflexivity. Qed.

Example casing_of_CaLL : casing_of "call" "CaLL".
Proof.
  apply (casing_cap "c"); [reflexivity|]. apply casing_keep.
  apply (casing_cap "l"); [reflexivity|]. apply (casing_cap "l"); [reflexivity|].
  constructor.
Qed.

(** C10. [parse_call_type] returns on every [Optional[str]] argument without
    raising; the result is [CALL] exactly on the casings of [call],
    [DELEGATE_CALL] exactly on the casings of [delegatecall], and [None] on
    everything else, in particular on [None] and on the empty string. *)
Theorem parse_call_type_total (call_type : option string) :
  (exists r, parse_call_type call_type = Ok r) /\
  (parse_call_type call_type = Ok (Some CALL) <->
     exists s, call_type = Some s /\ casing_of "call" s) /\
  (parse_call_type call_type = Ok (Some DELEGATE_CALL) <->
     exists s, call_type = Some s /\ casing_of "delegatecall" s) /\
  (parse_call_type call_type = Ok None <->
     forall s, call_type = Some s ->
       ~ casing_of "call" s /\ ~ casing_of "delegatecall" s) /\
  parse_call_type None = Ok None /\
  parse_call_type (Some "") = Ok None.
Proof.
  assert (Hc : forall s, String.eqb (lower s) "call" = true <-> casing_of "call" s).
  { intros s. rewrite String.eqb_eq. now apply lower_iff_casing. }
  assert (Hd : forall s, String.eqb (lower s) "delegatecall" = true
                         <-> casing_of "delegatecall" s).
  { intros s. rewrite String.eqb_eq. now apply lower_iff_casing. }
  assert (Hn : forall s, "call" = s -> "delegatecall" = s -> False) by congruence.
  destruct call_type as [s|].
  - rewrite parse_call_type_str.
    specialize (Hc s). specialize (Hd s). rewrite !String.eqb_eq in Hc, Hd.
    destruct (String.eqb (lower s) "call") eqn:E1;
      [apply String.eqb_eq in E1
      |apply String.eqb_neq in E1;
       destruct (String.eqb (lower s) "delegatecall") eqn:E2;
       [apply String.eqb_eq in E2|apply String.eqb_neq in E2]].
    + assert (C2 : ~ casing_of "delegatecall" s).
      { rewrite <- Hd, E1. discriminate. }
      split; [eauto|]. split; [|split; [|split; [|split; reflexivity]]].
      * split; [intros _; exists s; tauto | reflexivity].
      * split; [discriminate | intros (s' & [= <-] & C); contradiction].
      * split; [discriminate|]. intros H. destruct (H s eq_refl) as [H1 _]. tauto.
    + assert (C1 : ~ casing_of "call" s) by tauto.
      split; [eauto|]. split; [|split; [|split; [|split; reflexivity]]].
      * split; [discriminate | intros (s' & [= <-] & C); contradiction].
      * split; [intros _; exists s; tauto | reflexivity].
      * split; [discriminate|]. intros H. destruct (H s eq_refl) as [_ H2]. tauto.
    + assert (C1 : ~ casing_of "call" s) by tauto.
      assert (C2 : ~ casing_of "delegatecall" s) by tauto.
      split; [eauto|]. split; [|split; [|split; [|split; reflexivity]]].
      * split; [discriminate | intros (s' & [= <-] & C); contradiction].
      * split; [discriminate | intros (s' & [= <-] & C); contradiction].
      * split; [intros _ s' [= <-]; tauto | reflexivity].
  - split; [cbn; eauto|]. split; [|split; [|split; [|split; reflexivity]]].
    + split; [discriminate | intros (s & [=] & _)].
    + split; [discriminate | intros (s & [=] & _)].
    + split; [discriminate | reflexivity].
Qed.

End ParseCallType.

(** ** [SafeFunding.status] *)

Section FundingStatusFacts.

Import SafeFunding.

Lemma hash_truthy_Some (h : Sha3Hash) : hash_truthy (Some h) = true.
Proof. reflexivity. Qed.

Lemma hash_truthy_iff (h : option Sha3Hash) : hash_truthy h = true <-> h <> None.
Proof.
  destruct h as [h|].
  - rewrite hash_truthy_Some. split; [discriminate | reflexivity].
  - split; [discriminate | congruence].
Qed.

Lemma hash_truthy_false_iff (h : option Sha3Hash) : hash_truthy h = false <-> h = None.
Proof.
  destruct h as [h|].
  - rewrite hash_truthy_Some. split; discriminate.
  - split; reflexivity.
Qed.

Lemma status_text_inj (s1 s2 : FundingStatus) :
  status_text s1 = status_text s2 -> s1 = s2.
Proof. destruct s1, s2; cbn; intros E; first [reflexivity | discriminate E]. Qed.

(** The lifecycle state [status] reports, read off the recorded facts in the
    order the method tests them. *)
Lemma status_cascade (f : SafeFunding.t) :
  status f =
  status_text
    (if safe_deployed f then DEPLOYED
     else if hash_truthy (safe_deployed_tx_hash f) then DEPLOYED_UNCONFIRMED
     else if deployer_funded f then DEPLOYER_FUNDED
     else if hash_truthy (deployer_funded_tx_hash f) then DEPLOYER_FUNDED_UNCONFIRMED
     else if safe_funded f then FUNDED_AWAITING_DEPLOYER
     else NOT_FUNDED).
Proof.
  unfold status.
  destruct (safe_deployed f), (hash_truthy (safe_deployed_tx_hash f)),
    (deployer_funded f), (hash_truthy (deployer_funded_tx_hash f)), (safe_funded f);
    reflexivity.
Qed.

(** C2. [status] evaluates the facts in fixed priority order: it reports
    DEPLOYED exactly when the deployment is marked mined; the
    deployed-unconfirmed state exactly when it is not and a deployment hash is
    recorded; the deployer-funded state exactly when neither holds and the
    deployer funding is marked mined; the deployer-funded-unconfirmed state
    exactly when none of these holds and a deployer-funding hash is recorded;
    the funded-awaiting-deployer state exactly when none holds and the balance
    fact is set; and the not-funded state exactly when no fact is recorded. *)
Theorem status_priority_order (f : SafeFunding.t) :
  (status f = status_text DEPLOYED <-> safe_deployed f = true) /\
  (status f = status_text DEPLOYED_UNCONFIRMED <->
     safe_deployed f = false /\ safe_deployed_tx_hash f <> None) /\
  (status f = status_text DEPLOYER_FUNDED <->
     safe_deployed f = false /\ safe_deployed_tx_hash f = None /\
     deployer_funded f = true) /\
  (status f = status_text DEPLOYER_FUNDED_UNCONFIRMED <->
     safe_deployed f = false /\ safe_deployed_tx_hash f = None /\
     deployer_funded f = false /\ deployer_funded_tx_hash f <> None) /\
  (status f = status_text FUNDED_AWAITING_DEPLOYER <->
     safe_deployed f = false /\ safe_deployed_tx_hash f = None /\
     deployer_funded f = false /\ deployer_funded_tx_hash f = None /\
     safe_funded f = true) /\
  (status f = status_text NOT_FUNDED <->
     safe_deployed f = false /\ safe_deployed_tx_hash f = None /\
     deployer_funded f = false /\ deployer_funded_tx_hash f = None /\
     safe_funded f = false).
Proof.
  rewrite status_cascade.
  rewrite <- !hash_truthy_iff, <- !hash_truthy_false_iff.
  destruct (safe_deployed f), (hash_truthy (safe_deployed_tx_hash f)),
    (deployer_funded f), (hash_truthy (deployer_funded_tx_hash f)), (safe_funded f);
    cbn; (repeat split); intros; try discriminate; try reflexivity;
    repeat match goal with H : _ /\ _ |- _ => destruct H end; try discriminate.
Qed.

Lemma facts_le_refl (f : SafeFunding.t) : facts_le f f.
Proof. unfold facts_le. tauto. Qed.

Lemma facts_le_trans (f1 f2 f3 : SafeFunding.t) :
  facts_le f1 f2 -> facts_le f2 f3 -> facts_le f1 f3.
Proof. unfold facts_le. tauto. Qed.

(** The rank of the reported state does not go down along [facts_le]. *)
Lemma status_rank_mono (f1 f2 : SafeFunding.t) :
  facts_le f1 f2 ->
  exists s1 s2 : FundingStatus,
    status f1 = status_text s1 /\ status f2 = status_text s2 /\
    lifecycle_rank s1 <= lifecycle_rank s2.
Proof.
  unfold facts_le. rewrite <- !hash_truthy_iff.
  intros (H1 & H2 & H3 & H4 & H5).
  eexists _, _. split; [apply status_cascade|]. split; [apply status_cascade|].
  destruct (safe_deployed f1); [rewrite H4 by reflexivity; cbn; lia|].
  destruct (hash_truthy (safe_deployed_tx_hash f1));
    [rewrite H5 by reflexivity; destruct (safe_deployed f2); cbn; lia|].
  destruct (deployer_funded f1);
    [rewrite H2 by reflexivity;
     destruct (safe_deployed f2), (hash_truthy (safe_deployed_tx_hash f2)); cbn; lia|].
  destruct (hash_truthy (deployer_funded_tx_hash f1));
    [rewrite H3 by reflexivity;
     destruct (safe_deployed f2), (hash_truthy (safe_deployed_tx_hash f2)),
       (deployer_funded f2); cbn; lia|].
  destruct (safe_funded f1);
    [rewrite H1 by reflexivity|];
    destruct (safe_deployed f2), (hash_truthy (safe_deployed_tx_hash f2)),
      (deployer_funded f2), (hash_truthy (deployer_funded_tx_hash f2));
    try destruct (safe_funded f2); cbn; lia.
Qed.

(** C3. [status] is monotone in the recorded facts: when [f2] has every flag
    and every non-null hash of [f1], the state reported for [f2] is at least
    as far along NOT_FUNDED < FUNDED_AWAITING_DEPLOYER <
    DEPLOYER_FUNDED_UNCONFIRMED < DEPLOYER_FUNDED < DEPLOYED_UNCONFIRMED <
    DEPLOYED as the state reported for [f1]. *)
Theorem status_monotone (f1 f2 : SafeFunding.t) :
  facts_le f1 f2 ->
  exists s1 s2 : FundingStatus,
    status f1 = status_text s1 /\ status f2 = status_text s2 /\
    lifecycle_rank s1 <= lifecycle_rank s2.
Proof. apply status_rank_mono. Qed.

(** [status_monotone] between the two sample records of one wallet. *)
Lemma status_monotone_witness :
  facts_le funding_submitted deployment_submitted /\
  exists s1 s2 : FundingStatus,
    status funding_submitted = status_text s1 /\
    status deployment_submitted = status_text s2 /\
    lifecycle_rank s1 <= lifecycle_rank s2.
Proof.
  assert (H : facts_le funding_submitted deployment_submitted).
  { unfold facts_le; simpl. repeat split; intros; congruence. }
  split; [exact H | exact (status_monotone _ _ H)].
Defined.

(** C8, as stated, fails: a record with [deployer_funded] set and no
    deployer-funding hash is reported DEPLOYED, not DEPLOYER_FUNDED, once
    [safe_deployed] is set. *)
Lemma status_deployer_funded_overridden :
  deployer_funded deployed_without_hashes = true /\
  deployer_funded_tx_hash deployed_without_hashes = None /\
  status deployed_without_hashes = status_text DEPLOYED /\
  status deployed_without_hashes <> status_text DEPLOYER_FUNDED.
Proof. repeat split. discriminate. Qed.

(** C8, amended. Hash presence is not a precondition of the mined states:
    with [safe_deployed] set and no deployment hash the status is DEPLOYED;
    with [deployer_funded] set and no deployer-funding hash the status is
    DEPLOYER_FUNDED, provided no deployment fact is recorded ([safe_deployed]
    unset and no deployment hash). *)
Theorem status_ignores_missing_hash (f : SafeFunding.t) :
  (safe_deployed f = true -> safe_deployed_tx_hash f = None ->
   status f = status_text DEPLOYED) /\
  (deployer_funded f = true -> deployer_funded_tx_hash f = None ->
   safe_deployed f = false -> safe_deployed_tx_hash f = None ->
   status f = status_text DEPLOYER_FUNDED).
Proof.
  unfold status. split.
  - intros -> _. reflexivity.
  - intros -> _ -> ->. reflexivity.
Qed.

(** [status_ignores_missing_hash] on the two sample records without hashes. *)
Lemma status_ignores_missing_hash_witness :
  status deployed_without_hashes = status_text DEPLOYED /\
  status deployer_funded_without_hashes = status_text DEPLOYER_FUNDED.
Proof.
  split.
  - apply (proj1 (status_ignores_missing_hash deployed_without_hashes)); reflexivity.
  - apply (proj2 (status_ignores_missing_hash deployer_funded_without_hashes)); reflexivity.
Defined.

End FundingStatusFacts.

(** ** [SafeMultisigTxManager.get_last_nonce_for_safe] *)

Section LastNonce.

Import QuerySet SafeMultisigTxManager.

Lemma in_insert_by_nonce_desc (tx x : SafeMultisigTx.t) (l : list SafeMultisigTx.t) :
  In x (insert_by_nonce_desc tx l) <-> x = tx \/ In x l.
Proof.
  induction l as [|y l IH]; cbn.
  - intuition.
  - destruct (SafeMultisigTx.nonce y <? SafeMultisigTx.nonce tx)%N; cbn.
    + intuition.
    + rewrite IH. intuition.
Qed.

Lemma in_order_by_nonce_desc (x : SafeMultisigTx.t) (l : list SafeMultisigTx.t) :
  In x (order_by_nonce_desc l) <-> In x l.
Proof.
  induction l as [|y l IH]; cbn; [tauto|].
  rewrite in_insert_by_nonce_desc, IH. intuition.
Qed.

Lemma head_is_max_insert (tx : SafeMultisigTx.t) (l : list SafeMultisigTx.t) :
  head_is_max l -> head_is_max (insert_by_nonce_desc tx l).
Proof.
  intros Hl. destruct l as [|y l]; cbn.
  - intros z rest [= <- <-] x [<-|[]]. lia.
  - pose proof (Hl y l eq_refl) as Hy.
    destruct (SafeMultisigTx.nonce y <? SafeMultisigTx.nonce tx)%N eqn:E.
    + apply N.ltb_lt in E. intros z rest [= <- <-] x [<-|Hx]; [lia|].
      specialize (Hy x Hx). lia.
    + apply N.ltb_ge in E. intros z rest [= <- <-] x [<-|Hx]; [lia|].
      apply in_insert_by_nonce_desc in Hx as [->|Hx]; [exact E|].
      apply Hy. now right.
Qed.

Lemma head_is_max_order_by (l : list SafeMultisigTx.t) :
  head_is_max (order_by_nonce_desc l).
Proof.
  induction l as [|y l IH]; cbn.
  - intros z rest [=].
  - now apply head_is_max_insert.
Qed.

Lemma in_filter_safe (a : EthereumAddress) (x : SafeMultisigTx.t)
    (l : list SafeMultisigTx.t) :
  In x (filter_safe a l) <-> In x l /\ SafeMultisigTx.safe x = a.
Proof. unfold filter_safe. rewrite filter_In, String.eqb_eq. reflexivity. Qed.

Example get_last_nonce_no_rows :
  get_last_nonce_for_safe [] sample_address = None.
Proof. reflexivity. Qed.

Example get_last_nonce_zero :
  get_last_nonce_for_safe [sample_multisig_tx sample_address 0] sample_address = Some 0%N.
Proof. reflexivity. Qed.

Example get_last_nonce_mixed :
  get_last_nonce_for_safe
    [sample_multisig_tx sample_address 2; sample_multisig_tx other_address 9;
     sample_multisig_tx sample_address 0; sample_multisig_tx sample_address 1]
    sample_address = Some 2%N.
Proof. reflexivity. Qed.

Example get_last_nonce_other_wallet :
  get_last_nonce_for_safe [sample_multisig_tx other_address 9] sample_address = None.
Proof. reflexivity. Qed.

(** C5. [get_last_nonce_for_safe] returns [None] when the wallet has no
    stored multisig transaction and otherwise the largest nonce among the
    wallet's stored transactions; that value plus one, the sequencer's next
    nonce, lies above every nonce stored for the wallet. *)
Theorem get_last_nonce_for_safe_is_max
    (objects : list SafeMultisigTx.t) (safe_address : EthereumAddress) :
  match get_last_nonce_for_safe objects safe_address with
  | None =>
      forall tx, In tx objects -> SafeMultisigTx.safe tx <> safe_address
  | Some n =>
      (exists tx, In tx objects /\ SafeMultisigTx.safe tx = safe_address /\
                  SafeMultisigTx.nonce tx = n) /\
      (forall tx, In tx objects -> SafeMultisigTx.safe tx = safe_address ->
                  (SafeMultisigTx.nonce tx <= n)%N) /\
      (forall tx, In tx objects -> SafeMultisigTx.safe tx = safe_address ->
                  (SafeMultisigTx.nonce tx < n + 1)%N)
  end.
Proof.
  unfold get_last_nonce_for_safe; cbv zeta.
  pose proof (head_is_max_order_by (filter_safe safe_address objects)) as Hmax.
  pose proof (fun x => in_order_by_nonce_desc x (filter_safe safe_address objects)) as Hin.
  destruct (order_by_nonce_desc (filter_safe safe_address objects)) as [|y rest]; cbn.
  - intros tx Htx Hs. apply (Hin tx). apply in_filter_safe. now split.
  - assert (Hy : In y objects /\ SafeMultisigTx.safe y = safe_address).
    { apply in_filter_safe, Hin. now left. }
    assert (Hle : forall tx, In tx objects -> SafeMultisigTx.safe tx = safe_address ->
                    (SafeMultisigTx.nonce tx <= SafeMultisigTx.nonce y)%N).
    { intros tx Htx Hs. apply (Hmax y rest eq_refl).
      apply Hin, in_filter_safe. now split. }
    split; [exists y; tauto|]. split; [exact Hle|].
    intros tx Htx Hs. specialize (Hle tx Htx Hs). lia.
Qed.

End LastNonce.

(** ** The store: uniqueness constraints *)

Section StoreFacts.

Lemma nonce_taken_iff (rows : list SafeMultisigTx.t) (tx : SafeMultisigTx.t) :
  nonce_taken rows tx = true <->
  In (SafeMultisigTx.unique_together tx) (map SafeMultisigTx.unique_together rows).
Proof.
  unfold nonce_taken, SafeMultisigTx.unique_together.
  rewrite existsb_exists, in_map_iff. split.
  - intros (r & Hr & E). apply andb_true_iff in E as [E1 E2].
    apply String.eqb_eq in E1. apply N.eqb_eq in E2.
    exists r. split; [congruence | exact Hr].
  - intros (r & [= E1 E2] & Hr). exists r. split; [exact Hr|].
    apply andb_true_iff. split; [now apply String.eqb_eq | now apply N.eqb_eq].
Qed.

Lemma apply_write_multisig_rows (db db' : Database) (w : write) :
  apply_write db w = Ok db' ->
  safe_multisig_txs db' = safe_multisig_txs db \/
  exists tx, w = CreateSafeMultisigTx tx /\
             nonce_taken (safe_multisig_txs db) tx = false /\
             safe_multisig_txs db' = (safe_multisig_txs db ++ [tx])%list.
Proof.
  destruct w as [c|c|f|tx|tx]; cbn.
  - intros [= <-]. now left.
  - unfold save_safe_creation2. destruct (_ !! _); [|discriminate].
    destruct (unique_violation _ _ _ _); [discriminate|]. intros [= <-]. now left.
  - unfold save_safe_funding. destruct (_ !! _); [|discriminate].
    destruct (_ || _); [discriminate|]. intros [= <-]. now left.
  - unfold create_ethereum_tx. destruct (_ !! _); [discriminate|].
    intros [= <-]. now left.
  - unfold create_safe_multisig_tx.
    destruct (safe_contracts db !! _); [|discriminate].
    destruct (ethereum_txs db !! _); [|discriminate].
    destruct (nonce_taken _ _) eqn:E; [discriminate|].
    destruct (safe_tx_hash_taken _ _); [discriminate|].
    intros [= <-]. right. exists tx. cbn. auto.
Qed.

Lemma commit_multisig_rows (db : Database) (w : write) :
  exists more, safe_multisig_txs (commit db w) = (safe_multisig_txs db ++ more)%list.
Proof.
  unfold commit. destruct (apply_write db w) as [db'|e] eqn:E.
  - apply apply_write_multisig_rows in E as [->|(tx & _ & _ & ->)].
    + exists []. now rewrite app_nil_r.
    + now exists [tx].
  - exists []. now rewrite app_nil_r.
Qed.

Lemma commit_multisig_keys_unique (db : Database) (w : write) :
  multisig_keys_unique db -> multisig_keys_unique (commit db w).
Proof.
  unfold multisig_keys_unique, commit. intros Hdb.
  destruct (apply_write db w) as [db'|e] eqn:E; [|exact Hdb].
  apply apply_write_multisig_rows in E as [->|(tx & _ & Hfree & ->)]; [exact Hdb|].
  rewrite map_app. cbn [map].
  assert (Hnot : ~ In (SafeMultisigTx.unique_together tx)
                      (map SafeMultisigTx.unique_together (safe_multisig_txs db))).
  { rewrite <- nonce_taken_iff, Hfree. discriminate. }
  apply NoDup_ListNoDup. apply NoDup_app. repeat split.
  - now apply NoDup_ListNoDup.
  - intros k Hk Hk'. apply list_elem_of_singleton in Hk' as ->.
    apply Hnot. now apply list_elem_of_In.
  - apply NoDup_singleton.
Qed.

Lemma run_multisig_keys_unique (ws : list write) (db : Database) :
  multisig_keys_unique db -> multisig_keys_unique (run ws db).
Proof.
  revert db. induction ws as [|w ws IH]; intros db Hdb; cbn; [exact Hdb|].
  apply IH. now apply commit_multisig_keys_unique.
Qed.

Example second_insert_of_a_nonce_refused :
  map SafeMultisigTx.unique_together
    (safe_multisig_txs
       (run [SaveSafeContract sample_contract; CreateEthereumTx sample_ethereum_tx;
             CreateSafeMultisigTx (sample_multisig_tx sample_address 0);
             CreateSafeMultisigTx (sample_multisig_tx sample_address 0);
             CreateSafeMultisigTx (sample_multisig_tx sample_address 1)]
            empty_database))
  = [(sample_address, 0%N); (sample_address, 1%N)].
Proof. vm_compute; reflexivity. Qed.

(** C1. After every sequence of writes on an empty store no two
    [SafeMultisigTx] rows share the pair (wallet, nonce); an insert that
    would reuse the pair of a stored row is refused with [IntegrityError];
    and a stored row is never dropped by a later write, so a nonce once
    assigned to a wallet stays assigned and is not given out again. *)
Theorem multisig_nonce_unique (ws : list write) :
  List.NoDup (map SafeMultisigTx.unique_together
                (safe_multisig_txs (run ws empty_database))) /\
  (forall tx,
     In (SafeMultisigTx.unique_together tx)
        (map SafeMultisigTx.unique_together (safe_multisig_txs (run ws empty_database))) ->
     apply_write (run ws empty_database) (CreateSafeMultisigTx tx) = Raise IntegrityError) /\
  (forall w, exists more,
     safe_multisig_txs (commit (run ws empty_database) w)
     = (safe_multisig_txs (run ws empty_database) ++ more)%list).
Proof.
  split; [|split].
  - apply run_multisig_keys_unique. constructor.
  - intros tx Htx. apply nonce_taken_iff in Htx. cbn.
    unfold create_safe_multisig_tx. rewrite Htx.
    destruct (safe_contracts _ !! _); [|reflexivity].
    destruct (ethereum_txs _ !! _); reflexivity.
  - intros w. apply commit_multisig_rows.
Qed.

Lemma unique_violation_false {R : Type} (col : R -> option Sha3Hash)
    (table : gmap EthereumAddress R) (key b : EthereumAddress) (rb : R) (h : Sha3Hash) :
  unique_violation col table key (Some h) = false ->
  table !! b = Some rb -> col rb = Some h -> b = key.
Proof.
  unfold unique_violation. intros Hv Hb Hc.
  destruct (decide (b = key)) as [E|NE]; [exact E|exfalso].
  assert (Ht : existsb (fun kr => negb (String.eqb (fst kr) key)
                                  && bool_decide (col (snd kr) = Some h))
                       (map_to_list table) = true).
  { apply existsb_exists. exists (b, rb). split.
    - apply list_elem_of_In, elem_of_map_to_list. exact Hb.
    - cbn. apply andb_true_iff. split.
      + apply negb_true_iff, String.eqb_neq. exact NE.
      + apply bool_decide_eq_true. exact Hc. }
  congruence.
Qed.

Lemma unique_violation_true {R : Type} (col : R -> option Sha3Hash)
    (table : gmap EthereumAddress R) (key b : EthereumAddress) (rb : R) (h : Sha3Hash) :
  table !! b = Some rb -> b <> key -> col rb = Some h ->
  unique_violation col table key (Some h) = true.
Proof.
  intros Hb NE Hc.
  destruct (unique_violation col table key (Some h)) eqn:E; [reflexivity|].
  destruct NE. exact (unique_violation_false col table key b rb h E Hb Hc).
Qed.

Lemma unique_column_insert {R : Type} (col : R -> option Sha3Hash)
    (table : gmap EthereumAddress R) (key : EthereumAddress) (r : R) :
  unique_column col table ->
  unique_violation col table key (col r) = false ->
  unique_column col (<[key := r]> table).
Proof.
  intros Hu Hv a b ra rb h.
  rewrite !lookup_insert.
  destruct (decide (key = a)) as [<-|Na], (decide (key = b)) as [<-|Nb];
    cbn; intros Ha Hb Ca Cb.
  - reflexivity.
  - injection Ha as <-. rewrite Ca in Hv. symmetry.
    exact (unique_violation_false col table key b rb h Hv Hb Cb).
  - injection Hb as <-. rewrite Cb in Hv.
    exact (unique_violation_false col table key a ra h Hv Ha Ca).
  - exact (Hu a b ra rb h Ha Hb Ca Cb).
Qed.

Lemma unique_column_empty {R : Type} (col : R -> option Sha3Hash) :
  unique_column col (∅ : gmap EthereumAddress R).
Proof. intros a b ra rb h Ha. rewrite lookup_empty in Ha. discriminate. Qed.

Lemma commit_hashes_unique (db : Database) (w : write) :
  hashes_unique db -> hashes_unique (commit db w).
Proof.
  unfold hashes_unique, commit. intros (H1 & H2 & H3).
  destruct w as [c|c|f|tx|tx]; cbn.
  - auto.
  - unfold save_safe_creation2. destruct (_ !! _); [|auto].
    destruct (unique_violation _ _ _ _) eqn:E; [auto|]. cbn.
    split; [|auto]. now apply unique_column_insert.
  - unfold save_safe_funding. destruct (_ !! _); [|auto].
    destruct (_ || _) eqn:E; [auto|]. apply orb_false_iff in E as [E1 E2]. cbn.
    split; [auto|]. split; now apply unique_column_insert.
  - unfold create_ethereum_tx. destruct (_ !! _); auto.
  - unfold create_safe_multisig_tx.
    destruct (safe_contracts db !! _); [|auto].
    destruct (ethereum_txs db !! _); [|auto].
    destruct (_ || _); auto.
Qed.

Lemma run_hashes_unique (ws : list write) (db : Database) :
  hashes_unique db -> hashes_unique (run ws db).
Proof.
  revert db. induction ws as [|w ws IH]; intros db Hdb; cbn; [exact Hdb|].
  apply IH. now apply commit_hashes_unique.
Qed.

Example hash_of_another_wallet_refused :
  apply_write
    (run [SaveSafeContract sample_contract; SaveSafeContract other_contract;
          SaveSafeFunding funding_submitted]
         empty_database)
    (SaveSafeFunding (other_funding (Some sample_hash_1) None))
  = Raise IntegrityError /\
  (exists db,
     apply_write
       (run [SaveSafeContract sample_contract; SaveSafeContract other_contract;
             SaveSafeFunding funding_submitted]
            empty_database)
       (SaveSafeFunding (other_funding None (Some sample_hash_1)))
     = Ok db).
Proof. split; [vm_compute; reflexivity | eexists; vm_compute; reflexivity]. Qed.



End StoreFacts.

(** ** [SafeSignalView] *)

Section SafeSignalViewFacts.

Variable to_checksum_address : string -> string.
Variable Data : Type.
Variable serializer : SafeCreation2.t -> Database -> Data.

Local Abbreviation isChecksum := (isChecksumAddress to_checksum_address).
Local Abbreviation view_get := (get to_checksum_address Data serializer).
Local Abbreviation view_put := (put to_checksum_address Data).

Lemma get_unprocessable (address : string) (w : World) :
  isChecksum address = false ->
  view_get address w = (Ok (Build_Response HTTP_422_UNPROCESSABLE_ENTITY None), w).
Proof. intros H. unfold get. rewrite H. reflexivity. Qed.

Lemma get_not_found (address : string) (w : World) :
  isChecksum address = true ->
  safe_creation2s (database w) !! address = None ->
  view_get address w = (Ok (Build_Response HTTP_404_NOT_FOUND None), w).
Proof.
  intros H Hl. unfold get. rewrite H. cbn [negb].
  unfold view_try_except, view_bind, SafeCreation2_objects_get. rewrite Hl.
  reflexivity.
Qed.

Lemma get_found (address : string) (w : World) (c : SafeCreation2.t) :
  isChecksum address = true ->
  safe_creation2s (database w) !! address = Some c ->
  view_get address w
  = (Ok (Build_Response HTTP_200_OK (Some (serializer c (database w)))), w).
Proof.
  intros H Hl. unfold get. rewrite H. cbn [negb].
  unfold view_try_except, view_bind, SafeCreation2_objects_get. rewrite Hl.
  reflexivity.
Qed.

Lemma put_unprocessable (address : string) (w : World) :
  isChecksum address = false ->
  view_put address w = (Ok (Build_Response HTTP_422_UNPROCESSABLE_ENTITY None), w).
Proof. intros H. unfold put. rewrite H. reflexivity. Qed.

Lemma put_not_found (address : string) (w : World) :
  isChecksum address = true ->
  safe_contracts (database w) !! address = None ->
  view_put address w = (Ok (Build_Response HTTP_404_NOT_FOUND None), w).
Proof.
  intros H Hl. unfold put. rewrite H. cbn [negb].
  unfold view_try_except, view_bind, SafeContract_objects_get. rewrite Hl.
  reflexivity.
Qed.

Lemma put_accepted (address : string) (w : World) (c : SafeContract.t) :
  isChecksum address = true ->
  safe_contracts (database w) !! address = Some c ->
  view_put address w =
  (Ok (Build_Response HTTP_202_ACCEPTED None),
   {| database := database w;
      task_queue := task_queue w ++ [deploy_create2_safe_task address] |}).
Proof.
  intros H Hl. unfold put. rewrite H. cbn [negb].
  unfold view_try_except, view_bind, SafeContract_objects_get. rewrite Hl.
  reflexivity.
Qed.

(** C7, amended. On an address that passes the checksum test [put] answers
    202 and appends exactly one [deploy_create2_safe_task] call for the
    address to the queue when a wallet record is stored for it, and answers
    404 leaving the queue as it was when none is stored. On an address that
    fails the checksum test it answers 422 and queues nothing. The store is
    never changed. *)
Theorem put_force_check_outcomes (address : string) (w : World) :
  (isChecksum address = false ->
   view_put address w = (Ok (Build_Response HTTP_422_UNPROCESSABLE_ENTITY None), w)) /\
  (isChecksum address = true ->
   safe_contracts (database w) !! address = None ->
   view_put address w = (Ok (Build_Response HTTP_404_NOT_FOUND None), w)) /\
  (isChecksum address = true ->
   forall c : SafeContract.t,
     safe_contracts (database w) !! address = Some c ->
     view_put address w =
     (Ok (Build_Response HTTP_202_ACCEPTED None),
      {| database := database w;
         task_queue := task_queue w ++ [deploy_create2_safe_task address] |})).
Proof.
  split; [|split].
  - apply put_unprocessable.
  - apply put_not_found.
  - intros H c Hl. now apply put_accepted with c.
Qed.

End SafeSignalViewFacts.

Lemma isChecksumAddress_short (to_checksum_address : string -> string) :
  isChecksumAddress to_checksum_address short_address = false.
Proof. reflexivity. Qed.


Section GetStatus.

Variable to_checksum_address : string -> string.

Local Abbreviation isChecksum := (isChecksumAddress to_checksum_address).
Local Abbreviation get_status :=
  (get to_checksum_address SafeFunding2Response.t spec_SafeFunding2ResponseSerializer).


End GetStatus.


(** C7, as stated, fails: no wallet record is stored for the malformed
    address, and [put] answers 422, not 404. *)
Lemma put_force_check_malformed_address :
  safe_contracts (database sample_world) !! short_address = None /\
  (forall (to_checksum_address : string -> string) (Data : Type),
     put to_checksum_address Data short_address sample_world
     = (Ok (Build_Response HTTP_422_UNPROCESSABLE_ENTITY None), sample_world)) /\
  HTTP_422_UNPROCESSABLE_ENTITY <> HTTP_404_NOT_FOUND.
Proof.
  split; [vm_compute; reflexivity|]. split; [|discriminate].
  intros cs Data.
  exact (put_unprocessable cs Data short_address sample_world
           (isChecksumAddress_short cs)).
Qed.

(** [put_force_check_outcomes] on the sample store: a stored wallet and an
    address without one. *)
Lemma put_force_check_outcomes_witness :
  put (fun s => s) unit sample_address sample_world
  = (Ok (Build_Response HTTP_202_ACCEPTED None),
     {| database := sample_database;
        task_queue := [deploy_create2_safe_task sample_address] |}) /\
  put (fun s => s) unit other_address sample_world
  = (Ok (Build_Response HTTP_404_NOT_FOUND None), sample_world).
Proof.
  split.
  - apply (proj2 (proj2
      (put_force_check_outcomes (fun s => s) unit sample_address sample_world))
      eq_refl sample_contract).
    vm_compute; reflexivity.
  - apply (proj1 (proj2
      (put_force_check_outcomes (fun s => s) unit other_address sample_world))).
    + vm_compute; reflexivity.
    + vm_compute; reflexivity.
Defined.

(** ** [RedisService] *)

Section RedisServiceFacts.

Import RedisService.

Variable REDIS_URL : string.

Lemma construct_first (s : Interp) :
  instance s = None ->
  RedisService REDIS_URL s =
  (next_id s,
   {| heap := <[next_id s := RedisService_object (Some (S (next_id s)))]>
                (<[S (next_id s) := Redis_object REDIS_URL]>
                   (<[next_id s := RedisService_object None]> (heap s)));
      next_id := S (S (next_id s));
      instance := Some (next_id s) |}).
Proof. intros H. unfold RedisService, __new__. rewrite H. reflexivity. Qed.

Lemma construct_again (s : Interp) (o : nat) :
  instance s = Some o ->
  RedisService REDIS_URL s =
  (o,
   {| heap := <[o := RedisService_object (Some (next_id s))]>
                (<[next_id s := Redis_object REDIS_URL]> (heap s));
      next_id := S (next_id s);
      instance := Some o |}).
Proof.
  intros H. unfold RedisService, __new__, __init__, Redis_from_url, alloc.
  rewrite H. cbn. rewrite H. reflexivity.
Qed.

(** One construction from a well-formed state: the class attribute names the
    object returned, an instance already there is the one returned, and the
    [redis] attribute of the object is a client that did not exist before. *)
Lemma construct_step (s : Interp) :
  well_formed s ->
  well_formed (snd (RedisService REDIS_URL s)) /\
  instance (snd (RedisService REDIS_URL s)) = Some (fst (RedisService REDIS_URL s)) /\
  (forall o, instance s = Some o -> fst (RedisService REDIS_URL s) = o) /\
  exists c,
    heap (snd (RedisService REDIS_URL s)) !! fst (RedisService REDIS_URL s)
      = Some (RedisService_object (Some c)) /\
    heap s !! c = None /\
    heap (snd (RedisService REDIS_URL s)) !! c = Some (Redis_object REDIS_URL).
Proof.
  intros [Hfresh Hinst].
  destruct (instance s) as [o|] eqn:E.
  - rewrite (construct_again s o E). cbn [fst snd heap next_id instance].
    destruct (Hinst o eq_refl) as [r Ho].
    assert (Hlt : o < next_id s).
    { destruct (Nat.lt_ge_cases o (next_id s)) as [Hlt|Hge]; [exact Hlt|].
      rewrite (Hfresh o Hge) in Ho. discriminate. }
    split; [split|split; [reflexivity|split]].
    + cbn. intros i Hi. rewrite !lookup_insert_ne by lia. apply Hfresh. lia.
    + cbn. intros o' [= <-]. rewrite lookup_insert_eq. eauto.
    + intros o' [= <-]. reflexivity.
    + exists (next_id s). split; [apply lookup_insert_eq|].
      split; [apply Hfresh; lia|].
      rewrite lookup_insert_ne by lia. apply lookup_insert_eq.
  - rewrite (construct_first s E). cbn [fst snd heap next_id instance].
    split; [split|split; [reflexivity|split]].
    + cbn. intros i Hi. rewrite !lookup_insert_ne by lia. apply Hfresh. lia.
    + cbn. intros o' [= <-]. rewrite lookup_insert_eq. eauto.
    + intros o' [=].
    + exists (S (next_id s)). split; [apply lookup_insert_eq|].
      split; [apply Hfresh; lia|].
      rewrite lookup_insert_ne by lia. apply lookup_insert_eq.
Qed.

Lemma alloc_step (o : PyObject) (s : Interp) :
  well_formed s ->
  well_formed (snd (alloc o s)) /\ instance (snd (alloc o s)) = instance s.
Proof.
  intros [Hfresh Hinst]. cbn. split; [split|reflexivity]; cbn.
  - intros i Hi. rewrite lookup_insert_ne by lia. apply Hfresh. lia.
  - intros o' Ho'. destruct (Hinst o' Ho') as [r Hr].
    destruct (decide (next_id s = o')) as [<-|Hne].
    + rewrite Hfresh in Hr by lia. discriminate.
    + rewrite lookup_insert_ne by exact Hne. eauto.
Qed.

Lemma exec_state (steps : list step) (s : Interp) :
  well_formed s ->
  well_formed (exec REDIS_URL steps s) /\
  (forall o, instance s = Some o -> instance (exec REDIS_URL steps s) = Some o).
Proof.
  revert s. induction steps as [|st steps IH]; intros s Hs; cbn.
  - auto.
  - assert (Hst : well_formed (exec_step REDIS_URL s st) /\
                  (forall o, instance s = Some o ->
                             instance (exec_step REDIS_URL s st) = Some o)).
    { destruct st as [|obj]; cbn.
      - destruct (construct_step s Hs) as (Hwf & Hi & Hsame & _).
        split; [exact Hwf|]. intros o Ho. rewrite Hi, (Hsame o Ho). reflexivity.
      - destruct (alloc_step obj s Hs) as [Hwf Hi]. split; [exact Hwf|].
        intros o Ho. cbn in Hi. cbn. exact Ho. }
    destruct Hst as [Hwf Hkeep]. destruct (IH _ Hwf) as [Hwf' Hkeep'].
    split; [exact Hwf'|]. auto.
Qed.

Lemma well_formed_startup : well_formed startup.
Proof. split; [intros i _; apply lookup_empty | discriminate]. Qed.

Lemma exec_allocations (others : list PyObject) (s : Interp) :
  instance (exec REDIS_URL (map Allocate others) s) = instance s.
Proof.
  revert s. induction others as [|o others IH]; intros s; [reflexivity|].
  unfold exec in *. cbn [map fold_left]. rewrite IH. reflexivity.
Qed.

(** The state in which the first construction of a process runs: whatever
    ran before it created other objects only. *)
Local Abbreviation before others := (exec REDIS_URL (map Allocate others) startup).

(** The first construction, and a later one with any steps in between. *)
Local Abbreviation first others := (RedisService REDIS_URL (before others)).
Local Abbreviation meanwhile others between :=
  (exec REDIS_URL between (snd (first others))).
Local Abbreviation later others between :=
  (RedisService REDIS_URL (meanwhile others between)).

(** C9. The first construction of a process creates the service object: the
    class attribute was unset and the identity it returns named no object
    before, and afterwards the class attribute names that object, whose
    [redis] attribute is a client created by this construction. Every later
    construction, after any constructions and other allocations in between,
    returns that very object and leaves the class attribute on it, so all
    constructions yield the single object the first one created. A later
    construction still runs the initialisation again: it creates one new
    client, binds the [redis] attribute of the object to it, and changes
    nothing else in the heap. *)
Theorem RedisService_singleton (others : list PyObject) (between : list step) :
  (instance (before others) = None /\
   heap (before others) !! fst (first others) = None /\
   instance (snd (first others)) = Some (fst (first others)) /\
   exists c,
     heap (snd (first others)) !! fst (first others)
     = Some (RedisService_object (Some c)) /\
     heap (before others) !! c = None /\
     heap (snd (first others)) !! c = Some (Redis_object REDIS_URL)) /\
  fst (later others between) = fst (first others) /\
  instance (snd (later others between)) = Some (fst (first others)) /\
  exists c,
    heap (meanwhile others between) !! c = None /\
    heap (snd (later others between)) !! c = Some (Redis_object REDIS_URL) /\
    heap (snd (later others between)) !! fst (first others)
    = Some (RedisService_object (Some c)) /\
    forall i, i <> fst (first others) -> i <> c ->
      heap (snd (later others between)) !! i = heap (meanwhile others between) !! i.
Proof.
  pose proof (exec_allocations others startup) as Hnone.
  change (instance startup) with (@None nat) in Hnone.
  destruct (exec_state (map Allocate others) startup well_formed_startup) as [Hwf0 _].
  destruct (construct_step _ Hwf0) as (Hwf1 & Hi1 & _ & Hclient).
  destruct (exec_state between _ Hwf1) as [Hwf2 Hkeep].
  specialize (Hkeep _ Hi1).
  split.
  - split; [exact Hnone|]. split; [|split; [exact Hi1|exact Hclient]].
    rewrite (construct_first _ Hnone). cbn [fst].
    apply (proj1 Hwf0). lia.
  - rewrite (construct_again _ _ Hkeep). cbn [fst snd heap instance].
    split; [reflexivity|]. split; [reflexivity|].
    destruct Hwf2 as [Hfresh Hinst].
    destruct (Hinst _ Hkeep) as [r Hr].
    assert (Hne : fst (first others) <> next_id (meanwhile others between)).
    { intros E. rewrite E, Hfresh in Hr by lia. discriminate. }
    exists (next_id (meanwhile others between)).
    split; [apply Hfresh; lia|]. split; [|split].
    + rewrite lookup_insert_ne by exact Hne. apply lookup_insert_eq.
    + apply lookup_insert_eq.
    + intros i Hi Hc. rewrite !lookup_insert_ne by congruence. reflexivity.
Qed.

End RedisServiceFacts.

Example RedisService_three_constructions :
  fst (RedisService.RedisService sample_redis_url RedisService.startup) = 0 /\
  fst (RedisService.RedisService sample_redis_url
         (RedisService.exec sample_redis_url
            [RedisService.Construct;
             RedisService.Allocate (RedisService.Redis_object "redis://cache:6379/1");
             RedisService.Construct]
            RedisService.startup)) = 0 /\
  RedisService.heap
    (RedisService.exec sample_redis_url [RedisService.Construct] RedisService.startup) !! 0
  = Some (RedisService.RedisService_object (Some 1)) /\
  RedisService.heap
    (RedisService.exec sample_redis_url
       [RedisService.Construct; RedisService.Construct] RedisService.startup) !! 0
  = Some (RedisService.RedisService_object (Some 2)).
Proof. repeat split; vm_compute; reflexivity. Qed.

(** ** Manager queries and [__str__] methods *)

Section ManagerFacts.

Lemma is_None_true {A : Type} (v : option A) : is_None v = true <-> v = None.
Proof. destruct v; cbn; split; congruence. Qed.

Lemma is_None_false {A : Type} (v : option A) : is_None v = false <-> v <> None.
Proof. destruct v; cbn; split; congruence. Qed.

Lemma in_pending_to_check (objects : list SafeCreation2.t) (c : SafeCreation2.t) :
  In c (SafeCreation2Manager.pending_to_check objects) <->
  In c objects /\ SafeCreation2.tx_hash c <> None /\ SafeCreation2.block_number c = None.
Proof.
  unfold SafeCreation2Manager.pending_to_check.
  rewrite !filter_In, negb_true_iff, is_None_true, is_None_false. tauto.
Qed.

Lemma in_deployed_and_checked (objects : list SafeCreation2.t) (c : SafeCreation2.t) :
  In c (SafeCreation2Manager.deployed_and_checked objects) <->
  In c objects /\
  (SafeCreation2.tx_hash c <> None \/ SafeCreation2.block_number c <> None).
Proof.
  unfold SafeCreation2Manager.deployed_and_checked.
  rewrite filter_In, negb_true_iff, andb_false_iff, !is_None_false. tauto.
Qed.



Lemma status_DEPLOYED_iff (f : SafeFunding.t) :
  SafeFunding.status f = "DEPLOYED" <-> SafeFunding.safe_deployed f = true.
Proof.
  unfold SafeFunding.status.
  destruct (SafeFunding.safe_deployed f); [tauto|].
  destruct (hash_truthy _); [split; discriminate|].
  destruct (SafeFunding.deployer_funded f); [split; discriminate|].
  destruct (hash_truthy _); [split; discriminate|].
  destruct (SafeFunding.safe_funded f); split; discriminate.
Qed.

(** X2. [not_deployed] returns exactly the funding rows whose [status()] is
    not DEPLOYED. *)
Theorem not_deployed_iff_status (objects : list SafeFunding.t) (f : SafeFunding.t) :
  In f (SafeFundingManager.not_deployed objects) <->
  In f objects /\ SafeFunding.status f <> "DEPLOYED".
Proof.
  unfold SafeFundingManager.not_deployed.
  rewrite filter_In, status_DEPLOYED_iff.
  destruct (SafeFunding.safe_deployed f); cbn; intuition congruence.
Qed.

(** X3. Every row of [pending_just_to_deploy] is a row of [not_deployed] and
    has status DEPLOYER_FUNDED or DEPLOYED_UNCHECKED; and every funding row
    with status DEPLOYER_FUNDED is returned by [pending_just_to_deploy]. *)
Theorem pending_just_to_deploy_status (objects : list SafeFunding.t) (f : SafeFunding.t) :
  (In f (SafeFundingManager.pending_just_to_deploy objects) ->
   In f (SafeFundingManager.not_deployed objects) /\
   (SafeFunding.status f = "DEPLOYER_FUNDED" \/
    SafeFunding.status f = "DEPLOYED_UNCHECKED")) /\
  (In f objects -> SafeFunding.status f = "DEPLOYER_FUNDED" ->
   In f (SafeFundingManager.pending_just_to_deploy objects)).
Proof.
  unfold SafeFundingManager.pending_just_to_deploy, SafeFundingManager.not_deployed,
    SafeFunding.status.
  rewrite !filter_In.
  destruct (SafeFunding.safe_deployed f), (hash_truthy (SafeFunding.safe_deployed_tx_hash f)),
    (SafeFunding.deployer_funded f); cbn;
    try (destruct (hash_truthy (SafeFunding.deployer_funded_tx_hash f)));
    try (destruct (SafeFunding.safe_funded f));
    intuition congruence.
Qed.

(** [pending_just_to_deploy_status] on a table holding the two sample records
    where the deployer is funded. *)
Lemma pending_just_to_deploy_status_witness :
  In deployment_submitted
     (SafeFundingManager.not_deployed [deployed_without_hashes; deployment_submitted]) /\
  In deployer_funded_without_hashes
     (SafeFundingManager.pending_just_to_deploy
        [deployer_funded_without_hashes; deployed_without_hashes]).
Proof.
  split.
  - apply (proj1 (pending_just_to_deploy_status
                    [deployed_without_hashes; deployment_submitted]
                    deployment_submitted)).
    simpl. left. reflexivity.
  - apply (proj2 (pending_just_to_deploy_status
                    [deployer_funded_without_hashes; deployed_without_hashes]
                    deployer_funded_without_hashes)).
    + simpl. left. reflexivity.
    + reflexivity.
Defined.

Lemma in_contracts_deployed (db : Database) (c : SafeContract.t) :
  In c (SafeContractManager.deployed db) <->
  (exists k, safe_contracts db !! k = Some c) /\
  (SafeContractManager.creation2_has_block_number db c = true \/
   SafeContractManager.safefunding_safe_deployed db c = true).
Proof.
  unfold SafeContractManager.deployed.
  rewrite filter_In, orb_true_iff, in_map_iff.
  split; intros [H1 H2]; (split; [|exact H2]).
  - destruct H1 as ([k c'] & <- & Hin). exists k.
    apply list_elem_of_In, elem_of_map_to_list in Hin. exact Hin.
  - destruct H1 as [k Hk]. exists (k, c). split; [reflexivity|].
    apply list_elem_of_In, elem_of_map_to_list. exact Hk.
Qed.

Lemma contracts_deployed_iff_aux (db : Database) (c : SafeContract.t) :
  In c (SafeContractManager.deployed db) <->
  (exists k, safe_contracts db !! k = Some c) /\
  ((exists creation,
      safe_creation2s db !! SafeContract.address c = Some creation /\
      SafeCreation2.deployed creation = true) \/
   (exists funding,
      safe_fundings db !! SafeContract.address c = Some funding /\
      SafeFunding.status funding = "DEPLOYED")).
Proof.
  rewrite in_contracts_deployed.
  unfold SafeContractManager.creation2_has_block_number,
    SafeContractManager.safefunding_safe_deployed, SafeCreation2.deployed.
  split; intros [Hk H]; (split; [exact Hk|]).
  - destruct H as [H|H]; [left|right].
    + destruct (safe_creation2s db !! _) as [cr|]; [|discriminate].
      exists cr. split; [reflexivity|].
      destruct (SafeCreation2.block_number cr); [reflexivity|discriminate].
    + destruct (safe_fundings db !! _) as [f|]; [|discriminate].
      exists f. split; [reflexivity|]. apply status_DEPLOYED_iff.
      destruct (SafeFunding.safe_deployed f); [reflexivity|discriminate].
  - destruct H as [(cr & -> & H)|(f & -> & H)]; [left|right].
    + destruct (SafeCreation2.block_number cr); [reflexivity|discriminate].
    + apply status_DEPLOYED_iff in H. rewrite H. reflexivity.
Qed.

(** X4. [SafeContract.objects.deployed()] returns exactly the stored
    contracts whose deployment intent says [deployed()] or whose funding
    record has status DEPLOYED; a contract with neither row is not returned. *)
Theorem contracts_deployed_iff (db : Database) (c : SafeContract.t) :
  In c (SafeContractManager.deployed db) <->
  (exists k, safe_contracts db !! k = Some c) /\
  ((exists creation,
      safe_creation2s db !! SafeContract.address c = Some creation /\
      SafeCreation2.deployed creation = true) \/
   (exists funding,
      safe_fundings db !! SafeContract.address c = Some funding /\
      SafeFunding.status funding = "DEPLOYED")).
Proof. apply contracts_deployed_iff_aux. Qed.

(** X5. [SafeTxStatus.objects.deployed()] keeps exactly the scan rows whose
    wallet is the address of a contract that [SafeContract.objects.deployed()]
    returns, and never returns a row that is not in the table. *)
Theorem tx_status_deployed_iff (db : Database) (objects : list SafeTxStatus.t)
    (st : SafeTxStatus.t) :
  In st (SafeTxStatusManager.deployed db objects) <->
  In st objects /\
  exists c k,
    safe_contracts db !! k = Some c /\
    SafeContract.address c = SafeTxStatus.safe st /\
    ((exists creation,
        safe_creation2s db !! SafeTxStatus.safe st = Some creation /\
        SafeCreation2.deployed creation = true) \/
     (exists funding,
        safe_fundings db !! SafeTxStatus.safe st = Some funding /\
        SafeFunding.status funding = "DEPLOYED")).
Proof.
  unfold SafeTxStatusManager.deployed.
  rewrite filter_In, existsb_exists.
  split; intros [Hin H]; (split; [exact Hin|]).
  - destruct H as (c & Hc & E). apply String.eqb_eq in E.
    apply contracts_deployed_iff_aux in Hc as ((k & Hk) & Hd).
    exists c, k. rewrite <- E. auto.
  - destruct H as (c & k & Hk & E & Hd). exists c. split.
    + apply contracts_deployed_iff_aux. split; [eauto|]. rewrite E. exact Hd.
    + apply String.eqb_eq. exact E.
Qed.

Lemma append_assoc (a b c : string) : ((a ++ b) ++ c = a ++ (b ++ c))%string.
Proof.
  induction a as [|x a IH]; [reflexivity|].
  change (String x ((a ++ b) ++ c) = String x (a ++ (b ++ c)))%string.
  f_equal. exact IH.
Qed.

Lemma append_nil_r (a : string) : (a ++ "" = a)%string.
Proof.
  induction a as [|x a IH]; [reflexivity|].
  change (String x (a ++ "") = String x a)%string. f_equal. exact IH.
Qed.

Lemma append_inj_r (a b c : string) : (a ++ b = a ++ c)%string -> b = c.
Proof.
  induction a as [|x a IH]; [exact (fun H => H)|].
  change (String x (a ++ b) = String x (a ++ c) -> b = c)%string.
  intros [= H]. now apply IH.
Qed.

(** X6. The text [SafeFunding.__str__] prints names the stage [status()]
    reports: it is the wallet address behind the word Safe, followed by the
    description of the status text, and by nothing when the status is
    SAFE_WITHOUT_BALANCE. *)
Theorem SafeFunding_str_follows_status (f : SafeFunding.t) :
  SafeFunding__str__ f
  = ("Safe " ++ SafeFunding.safe f ++ status_description (SafeFunding.status f))%string.
Proof.
  unfold SafeFunding__str__, SafeFunding.status; cbv zeta.
  destruct (SafeFunding.safe_deployed f); [rewrite !append_assoc; reflexivity|].
  destruct (hash_truthy (SafeFunding.safe_deployed_tx_hash f));
    [rewrite !append_assoc; reflexivity|].
  destruct (SafeFunding.deployer_funded f); [rewrite !append_assoc; reflexivity|].
  destruct (hash_truthy (SafeFunding.deployer_funded_tx_hash f));
    [rewrite !append_assoc; reflexivity|].
  destruct (SafeFunding.safe_funded f); [rewrite !append_assoc; reflexivity|].
  change (status_description "SAFE_WITHOUT_BALANCE") with "".
  now rewrite append_nil_r.
Qed.

Example SafeFunding_str_sample :
  SafeFunding__str__ deployment_submitted
  = "Safe 0x5aAeb6053F3E94C9b9A09f33669435E7Ef1BeAed - deployed but not checked".
Proof. reflexivity. Qed.

(** X7. [SafeCreation2.__str__] tests the block number for truth while
    [deployed()] tests it against [None]: an intent is deployed and still
    printed without its block number exactly when it was mined in block 0. *)
Theorem SafeCreation2_str_block_zero (self : SafeCreation2.t) :
  (SafeCreation2.deployed self = true /\
   SafeCreation2__str__ self = ("Safe " ++ SafeCreation2.safe self)%string) <->
  SafeCreation2.block_number self = Some 0%Z.
Proof.
  unfold SafeCreation2.deployed, SafeCreation2__str__, opt_int_truthy, opt_int_str.
  destruct (SafeCreation2.block_number self) as [n|].
  - destruct (Z.eqb_spec n 0) as [->|Hn]; cbn [negb].
    + tauto.
    + split; [|intros [= E]; contradiction]. intros [_ E]. exfalso.
      rewrite <- (append_nil_r (SafeCreation2.safe self)) in E at 2.
      apply append_inj_r, append_inj_r in E. discriminate E.
  - split; [intros [[=] _] | discriminate].
Qed.

Example SafeCreation2_str_mined :
  SafeCreation2__str__
    {| SafeCreation2.safe := sample_address;
       SafeCreation2.master_copy := master_copy_address;
       SafeCreation2.proxy_factory := factory_address;
       SafeCreation2.salt_nonce := 7;
       SafeCreation2.owners := [other_address];
       SafeCreation2.threshold := 1;
       SafeCreation2.payment_token := None;
       SafeCreation2.payment := 1000;
       SafeCreation2.payment_receiver := None;
       SafeCreation2.setup_data := None;
       SafeCreation2.gas_estimated := 21000;
       SafeCreation2.gas_price_estimated := 3;
       SafeCreation2.tx_hash := Some sample_hash_1;
       SafeCreation2.block_number := Some 8123456%Z |}
  = "Safe 0x5aAeb6053F3E94C9b9A09f33669435E7Ef1BeAed - Deployed on block number 8123456".
Proof. vm_compute; reflexivity. Qed.

End ManagerFacts.

(** ** The store: further invariants *)

Section StoreInvariants.

Ltac store_simpl :=
  cbn [safe_contracts safe_creation2s safe_fundings ethereum_txs safe_multisig_txs
       apply_write].

Ltac step_write :=
  repeat
    (match goal with
     | |- context [match safe_contracts ?db !! ?k with _ => _ end] =>
         destruct (safe_contracts db !! k) eqn:?
     | |- context [match ethereum_txs ?db !! ?k with _ => _ end] =>
         destruct (ethereum_txs db !! k) eqn:?
     | |- context [if ?b then _ else _] => destruct b eqn:?
     end; store_simpl).

Ltac write_cases w :=
  unfold commit; destruct w; store_simpl;
  unfold save_safe_contract, save_safe_creation2, save_safe_funding, create_ethereum_tx,
    create_safe_multisig_tx;
  store_simpl; step_write; auto.

Ltac use_stored :=
  match goal with
  | H : ?m = Some ?v |- is_Some ?m => exists v; exact H
  end.

(** What one committed write can have done to each table. *)
Lemma commit_contracts_lookup (db : Database) (w : write) (k : string)
    (c : SafeContract.t) :
  safe_contracts (commit db w) !! k = Some c ->
  safe_contracts db !! k = Some c \/ SafeContract.address c = k.
Proof.
  write_cases w.
  rewrite lookup_insert. destruct (decide _) as [<-|]; [|auto].
  intros [= <-]. now right.
Qed.

Lemma commit_contracts_grow (db : Database) (w : write) (k : string) :
  is_Some (safe_contracts db !! k) -> is_Some (safe_contracts (commit db w) !! k).
Proof.
  write_cases w.
  rewrite lookup_insert. destruct (decide _); [eauto|auto].
Qed.

Lemma commit_ethereum_txs_lookup (db : Database) (w : write) (k : Sha3Hash)
    (tx : EthereumTx.t) :
  ethereum_txs (commit db w) !! k = Some tx ->
  ethereum_txs db !! k = Some tx \/ EthereumTx.tx_hash tx = k.
Proof.
  write_cases w.
  rewrite lookup_insert. destruct (decide _) as [<-|]; [|auto].
  intros [= <-]. now right.
Qed.

Lemma commit_ethereum_txs_grow (db : Database) (w : write) (k : Sha3Hash) :
  is_Some (ethereum_txs db !! k) -> is_Some (ethereum_txs (commit db w) !! k).
Proof.
  write_cases w.
  rewrite lookup_insert. destruct (decide _); [eauto|auto].
Qed.

Lemma commit_creation2_lookup (db : Database) (w : write) (k : string)
    (c : SafeCreation2.t) :
  safe_creation2s (commit db w) !! k = Some c ->
  safe_creation2s db !! k = Some c \/
  (SafeCreation2.safe c = k /\ is_Some (safe_contracts db !! k)).
Proof.
  write_cases w.
  rewrite lookup_insert. destruct (decide _) as [<-|]; [|auto].
  intros [= <-]. right. split; [reflexivity|use_stored].
Qed.

Lemma commit_funding_lookup (db : Database) (w : write) (k : string)
    (f : SafeFunding.t) :
  safe_fundings (commit db w) !! k = Some f ->
  safe_fundings db !! k = Some f \/
  (SafeFunding.safe f = k /\ is_Some (safe_contracts db !! k)).
Proof.
  write_cases w.
  rewrite lookup_insert. destruct (decide _) as [<-|]; [|auto].
  intros [= <-]. right. split; [reflexivity|use_stored].
Qed.

Lemma commit_multisig_in (db : Database) (w : write) (tx : SafeMultisigTx.t) :
  In tx (safe_multisig_txs (commit db w)) ->
  In tx (safe_multisig_txs db) \/
  (is_Some (safe_contracts db !! SafeMultisigTx.safe tx) /\
   is_Some (ethereum_txs db !! SafeMultisigTx.ethereum_tx tx)).
Proof.
  write_cases w.
  intros H. apply in_app_or in H as [H|[<-|[]]]; [auto|].
  right. split; use_stored.
Qed.

Lemma referential_integrity_empty : referential_integrity empty_database.
Proof.
  unfold referential_integrity, empty_database; store_simpl.
  split; [|split; [|split; [|split]]].
  - intros k c H. rewrite lookup_empty in H. discriminate.
  - intros k c H. rewrite lookup_empty in H. discriminate.
  - intros k c H. rewrite lookup_empty in H. discriminate.
  - intros k c H. rewrite lookup_empty in H. discriminate.
  - intros tx [].
Qed.

Lemma commit_referential_integrity (db : Database) (w : write) :
  referential_integrity db -> referential_integrity (commit db w).
Proof.
  intros (Hc & Hcr & Hf & He & Hm).
  split; [|split; [|split; [|split]]].
  - intros k c H. apply commit_contracts_lookup in H as [H|H]; [now apply Hc | exact H].
  - intros k c H. apply commit_creation2_lookup in H as [H|[H1 H2]].
    + destruct (Hcr k c H) as [H1 H2]. split; [exact H1|].
      now apply commit_contracts_grow.
    + split; [exact H1|]. now apply commit_contracts_grow.
  - intros k f H. apply commit_funding_lookup in H as [H|[H1 H2]].
    + destruct (Hf k f H) as [H1 H2]. split; [exact H1|].
      now apply commit_contracts_grow.
    + split; [exact H1|]. now apply commit_contracts_grow.
  - intros k tx H. apply commit_ethereum_txs_lookup in H as [H|H]; [now apply He | exact H].
  - intros tx H. apply commit_multisig_in in H as [H|[H1 H2]].
    + destruct (Hm tx H) as [H1 H2].
      split; [now apply commit_contracts_grow | now apply commit_ethereum_txs_grow].
    + split; [now apply commit_contracts_grow | now apply commit_ethereum_txs_grow].
Qed.

Lemma run_referential_integrity (ws : list write) (db : Database) :
  referential_integrity db -> referential_integrity (run ws db).
Proof.
  revert db. induction ws as [|w ws IH]; intros db Hdb; cbn; [exact Hdb|].
  apply IH. now apply commit_referential_integrity.
Qed.

(** X8. The writes keep the foreign keys sound: after every sequence of
    writes on an empty store each row is filed under its own primary key,
    every deployment intent, funding record and multisig transaction belongs
    to a stored contract, and every multisig transaction points at a stored
    chain transaction. *)
Theorem writes_keep_referential_integrity (ws : list write) :
  referential_integrity (run ws empty_database).
Proof. apply run_referential_integrity, referential_integrity_empty. Qed.

Example intent_without_contract_refused :
  apply_write empty_database (SaveSafeCreation2 (sample_creation None))
  = Raise IntegrityError /\
  apply_write empty_database (CreateSafeMultisigTx (sample_multisig_tx sample_address 0))
  = Raise IntegrityError.
Proof. split; reflexivity. Qed.

Lemma commit_multisig_rows_hash (db : Database) (w : write) :
  safe_multisig_txs (commit db w) = safe_multisig_txs db \/
  exists tx,
    safe_tx_hash_taken (safe_multisig_txs db) tx = false /\
    safe_multisig_txs (commit db w) = (safe_multisig_txs db ++ [tx])%list.
Proof.
  write_cases w.
  match goal with H : _ || _ = false |- _ => apply orb_false_iff in H as [_ H] end.
  right. eauto.
Qed.

Lemma safe_tx_hash_taken_false (rows : list SafeMultisigTx.t) (tx : SafeMultisigTx.t)
    (h : Sha3Hash) :
  safe_tx_hash_taken rows tx = false -> SafeMultisigTx.safe_tx_hash tx = Some h ->
  h ∉ omap SafeMultisigTx.safe_tx_hash rows.
Proof.
  unfold safe_tx_hash_taken. intros Hf Hh. rewrite Hh in Hf.
  intros Hin. apply list_elem_of_omap in Hin as (r & Hr & Hrh).
  assert (Ht : existsb (fun r => bool_decide (SafeMultisigTx.safe_tx_hash r = Some h)) rows
               = true).
  { apply existsb_exists. exists r. split; [now apply list_elem_of_In|].
    now apply bool_decide_eq_true. }
  congruence.
Qed.

Lemma commit_safe_tx_hashes (db : Database) (w : write) :
  NoDup (safe_tx_hashes db) -> NoDup (safe_tx_hashes (commit db w)).
Proof.
  unfold safe_tx_hashes. intros Hdb.
  destruct (commit_multisig_rows_hash db w) as [->|(tx & Hfree & ->)]; [exact Hdb|].
  rewrite omap_app. cbn [omap list_omap].
  destruct (SafeMultisigTx.safe_tx_hash tx) as [h|] eqn:Hh.
  - apply NoDup_app. split; [exact Hdb|]. split; [|apply NoDup_singleton].
    intros x Hx Hx'. apply list_elem_of_singleton in Hx' as ->.
    exact (safe_tx_hash_taken_false _ _ _ Hfree Hh Hx).
  - now rewrite app_nil_r.
Qed.

(** X9. The derived hash of a multisig transaction is unique: after every
    sequence of writes on an empty store the non-null [safe_tx_hash] values
    of the stored rows are pairwise different, while any number of rows may
    have none. *)
Theorem safe_tx_hash_unique (ws : list write) :
  NoDup (safe_tx_hashes (run ws empty_database)).
Proof.
  assert (H : forall db, NoDup (safe_tx_hashes db) -> NoDup (safe_tx_hashes (run ws db))).
  { induction ws as [|w ws IH]; intros db Hdb; cbn; [exact Hdb|].
    apply IH. now apply commit_safe_tx_hashes. }
  apply H. constructor.
Qed.

Lemma get_last_nonce_spec (objects : list SafeMultisigTx.t) (a : EthereumAddress) :
  match SafeMultisigTxManager.get_last_nonce_for_safe objects a with
  | None => forall tx, In tx objects -> SafeMultisigTx.safe tx <> a
  | Some n =>
      (exists tx, In tx objects /\ SafeMultisigTx.safe tx = a /\
                  SafeMultisigTx.nonce tx = n) /\
      (forall tx, In tx objects -> SafeMultisigTx.safe tx = a ->
                  (SafeMultisigTx.nonce tx <= n)%N)
  end.
Proof.
  unfold SafeMultisigTxManager.get_last_nonce_for_safe; cbv zeta.
  pose proof (head_is_max_order_by (QuerySet.filter_safe a objects)) as Hmax.
  pose proof (fun x => in_order_by_nonce_desc x (QuerySet.filter_safe a objects)) as Hin.
  destruct (QuerySet.order_by_nonce_desc (QuerySet.filter_safe a objects)) as [|y rest];
    cbn [QuerySet.first].
  - intros tx Htx Hs. apply (Hin tx). apply in_filter_safe. now split.
  - assert (Hy : In y objects /\ SafeMultisigTx.safe y = a).
    { apply in_filter_safe, Hin. now left. }
    split; [exists y; tauto|].
    intros tx Htx Hs. apply (Hmax y rest eq_refl).
    apply Hin, in_filter_safe. now split.
Qed.

Lemma get_last_nonce_Some_iff (objects : list SafeMultisigTx.t) (a : EthereumAddress)
    (n : N) :
  SafeMultisigTxManager.get_last_nonce_for_safe objects a = Some n <->
  (exists tx, In tx objects /\ SafeMultisigTx.safe tx = a /\ SafeMultisigTx.nonce tx = n) /\
  (forall tx, In tx objects -> SafeMultisigTx.safe tx = a ->
              (SafeMultisigTx.nonce tx <= n)%N).
Proof.
  pose proof (get_last_nonce_spec objects a) as Hs.
  destruct (SafeMultisigTxManager.get_last_nonce_for_safe objects a) as [m|].
  - split; [intros [= <-]; exact Hs|].
    destruct Hs as [(y & Hy & Hya & Hyn) Hmax].
    intros [(x & Hx & Hxa & Hxn) Hmax']. f_equal.
    specialize (Hmax x Hx Hxa). specialize (Hmax' y Hy Hya). lia.
  - split; [discriminate|]. intros [(x & Hx & Hxa & _) _]. destruct (Hs x Hx Hxa).
Qed.

Lemma get_last_nonce_None_iff (objects : list SafeMultisigTx.t) (a : EthereumAddress) :
  SafeMultisigTxManager.get_last_nonce_for_safe objects a = None <->
  (forall tx, In tx objects -> SafeMultisigTx.safe tx <> a).
Proof.
  pose proof (get_last_nonce_spec objects a) as Hs.
  destruct (SafeMultisigTxManager.get_last_nonce_for_safe objects a) as [m|].
  - split; [discriminate|]. destruct Hs as [(y & Hy & Hya & _) _].
    intros H. destruct (H y Hy Hya).
  - tauto.
Qed.

Lemma get_last_nonce_ext (l1 l2 : list SafeMultisigTx.t) (a : EthereumAddress) :
  (forall tx, SafeMultisigTx.safe tx = a -> In tx l1 <-> In tx l2) ->
  SafeMultisigTxManager.get_last_nonce_for_safe l1 a
  = SafeMultisigTxManager.get_last_nonce_for_safe l2 a.
Proof.
  intros Hext.
  destruct (SafeMultisigTxManager.get_last_nonce_for_safe l2 a) as [n|] eqn:E.
  - apply get_last_nonce_Some_iff. apply get_last_nonce_Some_iff in E.
    destruct E as [(x & Hx & Hxa & Hxn) Hmax]. split.
    + exists x. split; [now apply Hext|auto].
    + intros tx Htx Ha. apply Hmax; [now apply Hext|exact Ha].
  - apply get_last_nonce_None_iff. intros tx Htx Ha.
    apply (proj1 (get_last_nonce_None_iff l2 a) E tx); [now apply Hext|exact Ha].
Qed.

(** X10. Inserting a multisig transaction moves the last nonce of its wallet
    to the larger of the old last nonce and the new nonce (to the new nonce
    when the wallet had no transaction), and leaves the last nonce of every
    other wallet as it was. *)
Theorem last_nonce_after_create (db db' : Database) (tx : SafeMultisigTx.t) :
  create_safe_multisig_tx db tx = Ok db' ->
  SafeMultisigTxManager.get_last_nonce_for_safe (safe_multisig_txs db')
    (SafeMultisigTx.safe tx)
  = Some (match SafeMultisigTxManager.get_last_nonce_for_safe (safe_multisig_txs db)
                  (SafeMultisigTx.safe tx) with
          | Some n => N.max n (SafeMultisigTx.nonce tx)
          | None => SafeMultisigTx.nonce tx
          end) /\
  (forall a, a <> SafeMultisigTx.safe tx ->
     SafeMultisigTxManager.get_last_nonce_for_safe (safe_multisig_txs db') a
     = SafeMultisigTxManager.get_last_nonce_for_safe (safe_multisig_txs db) a).
Proof.
  intros Hc.
  assert (Hrows : safe_multisig_txs db' = (safe_multisig_txs db ++ [tx])%list).
  { revert Hc. unfold create_safe_multisig_tx.
    destruct (safe_contracts db !! _); [|discriminate].
    destruct (ethereum_txs db !! _); [|discriminate].
    destruct (_ || _); [discriminate|]. now intros [= <-]. }
  rewrite Hrows. split.
  - apply get_last_nonce_Some_iff.
    pose proof (get_last_nonce_spec (safe_multisig_txs db) (SafeMultisigTx.safe tx)) as Hs.
    destruct (SafeMultisigTxManager.get_last_nonce_for_safe (safe_multisig_txs db)
                (SafeMultisigTx.safe tx)) as [n|].
    + destruct Hs as [(y & Hy & Hya & Hyn) Hmax]. split.
      * destruct (N.max_spec n (SafeMultisigTx.nonce tx)) as [[_ ->]|[_ ->]].
        -- exists tx. split; [apply in_or_app; right; now left|auto].
        -- exists y. split; [apply in_or_app; now left|auto].
      * intros x Hx Hxa. apply in_app_or in Hx as [Hx|[<-|[]]].
        -- specialize (Hmax x Hx Hxa). lia.
        -- lia.
    + split.
      * exists tx. split; [apply in_or_app; right; now left|auto].
      * intros x Hx Hxa. apply in_app_or in Hx as [Hx|[<-|[]]]; [|lia].
        destruct (Hs x Hx Hxa).
  - intros a Ha. apply get_last_nonce_ext. intros x Hxa. split.
    + intros Hx. apply in_app_or in Hx as [Hx|[<-|[]]]; [exact Hx|congruence].
    + intros Hx. apply in_or_app. now left.
Qed.

(** [last_nonce_after_create] on a wallet holding nonce 0 that receives nonce 1. *)
Lemma last_nonce_after_create_witness :
  create_safe_multisig_tx nonce_zero_database (sample_multisig_tx sample_address 1)
  = Ok nonce_one_database /\
  SafeMultisigTxManager.get_last_nonce_for_safe (safe_multisig_txs nonce_one_database)
    sample_address
  = Some 1%N.
Proof.
  assert (H : create_safe_multisig_tx nonce_zero_database
                (sample_multisig_tx sample_address 1) = Ok nonce_one_database).
  { vm_compute; reflexivity. }
  split; [exact H|].
  exact (proj1 (last_nonce_after_create _ _ _ H)).
Defined.

(** X11. The last nonce of a wallet does not depend on the order in which the
    table hands out its rows. *)
Theorem last_nonce_order_independent (l1 l2 : list SafeMultisigTx.t)
    (a : EthereumAddress) :
  Permutation l1 l2 ->
  SafeMultisigTxManager.get_last_nonce_for_safe l1 a
  = SafeMultisigTxManager.get_last_nonce_for_safe l2 a.
Proof.
  intros Hp. apply get_last_nonce_ext. intros tx _. split.
  - now apply Permutation_in.
  - apply Permutation_in. now symmetry.
Qed.

(** [last_nonce_order_independent] on two rows taken in either order. *)
Lemma last_nonce_order_independent_witness :
  SafeMultisigTxManager.get_last_nonce_for_safe
    [sample_multisig_tx sample_address 4; sample_multisig_tx sample_address 9]
    sample_address
  = SafeMultisigTxManager.get_last_nonce_for_safe
      [sample_multisig_tx sample_address 9; sample_multisig_tx sample_address 4]
      sample_address.
Proof.
  apply last_nonce_order_independent. apply perm_swap.
Defined.

End StoreInvariants.

(** ** [SafeSignalView]: how [get] and [put] go together *)

Section SafeSignalViewComposition.

Variable to_checksum_address : string -> string.
Variable Data : Type.
Variable serializer : SafeCreation2.t -> Database -> Data.

Lemma get_found_or_not (address : string) (w : World) (r : Response Data) :
  fst (get to_checksum_address Data serializer address w) = Ok r ->
  response_status r = HTTP_200_OK ->
  isChecksumAddress to_checksum_address address = true /\
  is_Some (safe_creation2s (database w) !! address).
Proof.
  destruct (isChecksumAddress to_checksum_address address) eqn:H.
  - destruct (safe_creation2s (database w) !! address) as [c|] eqn:Hl.
    + eauto.
    + rewrite (get_not_found _ _ _ address w H Hl). cbn. intros [= <-]. discriminate.
  - rewrite (get_unprocessable _ _ _ address w H). cbn. intros [= <-]. discriminate.
Qed.

(** X12. On a store built by writes, whenever [get] answers 200 for an
    address, [put] on the same address answers 202 and queues the deployment
    task: a stored deployment intent always has its wallet record. *)
Theorem status_found_implies_force_check_accepted
    (ws : list write) (queue : list Task) (address : string) (r : Response Data) :
  fst (get to_checksum_address Data serializer address (world_after ws queue)) = Ok r ->
  response_status r = HTTP_200_OK ->
  put to_checksum_address Data address (world_after ws queue)
  = (Ok (Build_Response HTTP_202_ACCEPTED None),
     {| database := run ws empty_database;
        task_queue := queue ++ [deploy_create2_safe_task address] |}).
Proof.
  intros Hg Hr. destruct (get_found_or_not _ _ _ Hg Hr) as [Hc [c Hl]].
  destruct (run_referential_integrity ws empty_database referential_integrity_empty)
    as (_ & Hcr & _).
  destruct (Hcr address c Hl) as [_ [sc Hsc]].
  exact (put_accepted to_checksum_address Data address (world_after ws queue) sc Hc Hsc).
Qed.

Lemma get_reads_database_only (address : string) (w1 w2 : World) :
  database w1 = database w2 ->
  fst (get to_checksum_address Data serializer address w1)
  = fst (get to_checksum_address Data serializer address w2).
Proof.
  intros E. unfold get. destruct (negb _); [reflexivity|].
  unfold view_try_except, view_bind, SafeCreation2_objects_get, serializer_data.
  rewrite E.
  destruct (safe_creation2s (database w2) !! address); cbn; rewrite ?E; reflexivity.
Qed.

(** X13. Force checks are not merged: [k] calls of [put] in a row for a
    stored wallet leave [k] more deployment tasks for it in the queue, change
    nothing in the store, and do not change what [get] answers for any
    address. *)
Theorem force_check_repeated (address : string) (w : World) (c : SafeContract.t)
    (k : nat) :
  isChecksumAddress to_checksum_address address = true ->
  safe_contracts (database w) !! address = Some c ->
  Nat.iter k (fun w' => snd (put to_checksum_address Data address w')) w
  = {| database := database w;
       task_queue := task_queue w ++ repeat (deploy_create2_safe_task address) k |} /\
  (forall queried : string,
     fst (get to_checksum_address Data serializer queried
            (Nat.iter k (fun w' => snd (put to_checksum_address Data address w')) w))
     = fst (get to_checksum_address Data serializer queried w)).
Proof.
  intros Hc Hl.
  assert (E : Nat.iter k (fun w' => snd (put to_checksum_address Data address w')) w
              = {| database := database w;
                   task_queue :=
                     task_queue w ++ repeat (deploy_create2_safe_task address) k |}).
  { induction k as [|k IH].
    - cbn. rewrite app_nil_r. now destruct w.
    - rewrite Nat.iter_succ, IH.
      rewrite (put_accepted to_checksum_address Data address
                 {| database := database w;
                    task_queue :=
                      task_queue w ++ repeat (deploy_create2_safe_task address) k |}
                 c Hc Hl).
      cbn [snd database task_queue]. f_equal.
      rewrite <- app_assoc. f_equal.
      change (deploy_create2_safe_task address
              :: repeat (deploy_create2_safe_task address) k)
        with (repeat (deploy_create2_safe_task address) (S k)).
      symmetry. apply repeat_cons. }
  split; [exact E|]. intros queried. apply get_reads_database_only.
  rewrite E. reflexivity.
Qed.

End SafeSignalViewComposition.

(** [status_found_implies_force_check_accepted] on the sample store. *)
Lemma status_found_implies_force_check_accepted_witness :
  put (fun s => s) (option Sha3Hash * option Z) sample_address
    (world_after [SaveSafeContract sample_contract;
                  SaveSafeCreation2 (sample_creation (Some sample_hash_1))] [])
  = (Ok (Build_Response HTTP_202_ACCEPTED None),
     {| database := sample_database;
        task_queue := [deploy_create2_safe_task sample_address] |}).
Proof.
  apply (status_found_implies_force_check_accepted (fun s => s) _ hash_and_block
           [SaveSafeContract sample_contract;
            SaveSafeCreation2 (sample_creation (Some sample_hash_1))]
           [] sample_address
           (Build_Response HTTP_200_OK (Some (Some sample_hash_1, None)))).
  - vm_compute; reflexivity.
  - reflexivity.
Defined.

(** [force_check_repeated] with three calls on the sample store. *)
Lemma force_check_repeated_witness :
  Nat.iter 3 (fun w' => snd (put (fun s => s) unit sample_address w')) sample_world
  = {| database := sample_database;
       task_queue := repeat (deploy_create2_safe_task sample_address) 3 |}.
Proof.
  apply (proj1 (force_check_repeated (fun s => s) unit (fun _ _ => tt)
                  sample_address sample_world sample_contract 3
                  eq_refl ltac:(vm_compute; reflexivity))).
Defined.

(** ** [RedisService]: what repeated construction allocates *)

Section RedisServiceAllocation.

Import RedisService.

Variable REDIS_URL : string.

Lemma exec_snoc (steps : list step) (st : step) (s : Interp) :
  exec REDIS_URL (steps ++ [st]) s = exec_step REDIS_URL (exec REDIS_URL steps s) st.
Proof. unfold exec. rewrite fold_left_app. reflexivity. Qed.

(** X14. [n] constructions in a freshly started process create the service
    object once, as the first object, and call [Redis.from_url] [n] times:
    the objects created are the service and [n] clients, and the [redis]
    attribute of the service is the client of the last construction. *)
Theorem constructions_allocate (n i : nat) :
  instance (exec REDIS_URL (repeat Construct (S n)) startup) = Some 0 /\
  next_id (exec REDIS_URL (repeat Construct (S n)) startup) = S (S n) /\
  heap (exec REDIS_URL (repeat Construct (S n)) startup) !! i
  = (if Nat.eqb i 0 then Some (RedisService_object (Some (S n)))
     else if Nat.leb i (S n) then Some (Redis_object REDIS_URL)
     else None).
Proof.
  revert i. induction n as [|n IH]; intros i.
  - cbn. split; [reflexivity|]. split; [reflexivity|].
    destruct i as [|[|i]]; cbn.
    + apply lookup_insert_eq.
    + rewrite lookup_insert_ne by lia. apply lookup_insert_eq.
    + rewrite !lookup_insert_ne by lia. apply lookup_empty.
  - change (repeat Construct (S (S n))) with (Construct :: repeat Construct (S n)).
    rewrite repeat_cons, exec_snoc.
    destruct (IH 0) as (Hi & Hn & _).
    cbn [exec_step]. rewrite (construct_again REDIS_URL _ 0 Hi).
    cbn [snd instance next_id heap]. rewrite Hn.
    split; [reflexivity|]. split; [reflexivity|].
    destruct (Nat.eqb_spec i 0) as [->|Hi0].
    + apply lookup_insert_eq.
    + rewrite lookup_insert_ne by lia.
      destruct (Nat.eq_dec i (S (S n))) as [->|Hne].
      * rewrite lookup_insert_eq.
        destruct (Nat.leb_spec (S (S n)) (S (S n))); [reflexivity|lia].
      * rewrite lookup_insert_ne by lia.
        destruct (IH i) as (_ & _ & ->).
        destruct (Nat.eqb_spec i 0); [lia|].
        destruct (Nat.leb_spec i (S n)), (Nat.leb_spec i (S (S n)));
          first [reflexivity | lia].
Qed.

End RedisServiceAllocation.

(** ** [EthereumTxManager.create_from_tx] *)

Section CreateFromTxFacts.

Import EthereumTxManager.

Variable HexBytes : string -> option string.

(** The row [create_from_tx] stores for a dict with all entries read. *)
Lemma create_from_tx_present (db : Database) (tx : TxDict) (tx_hash : Sha3Hash)
    (block_number : option Z) (sender : option EthereumAddress) (gas gas_price : N)
    (raw data : string) (nonce value : N) :
  tx_from tx = Some sender -> tx_gas tx = Some gas -> tx_gasPrice tx = Some gas_price ->
  tx_data tx = Some raw -> HexBytes raw = Some data ->
  tx_nonce tx = Some nonce -> tx_value tx = Some value ->
  create_from_tx HexBytes db tx tx_hash block_number
  = match create_ethereum_tx db
            {| EthereumTx.tx_hash := tx_hash;
               EthereumTx.block_number := block_number;
               EthereumTx.gas_used := None;
               EthereumTx._from := sender;
               EthereumTx.gas := gas;
               EthereumTx.gas_price := gas_price;
               EthereumTx.data := Some data;
               EthereumTx.nonce := nonce;
               EthereumTx.to := dict_get (tx_to tx);
               EthereumTx.value := value |} with
    | Ok db' => inr db'
    | Raise e => inl (StoreError e)
    end.
Proof.
  intros H1 H2 H3 H4 H5 H6 H7. unfold create_from_tx.
  rewrite H1, H2, H3, H4. cbn [getitem]. rewrite H5, H6, H7. reflexivity.
Qed.

(** X15. [create_from_tx] stores a row exactly when the dict has the entries
    from, gas, gasPrice, data, nonce and value, the data decodes, and no
    [EthereumTx] with that hash is stored; the row then found under the hash
    carries these values, [gas_used] unset, and as recipient the value of the
    entry to, or [None] when the dict has no such entry. A [KeyError] names
    the first of the six entries that is absent, never to. *)
Theorem create_from_tx_outcomes (db : Database) (tx : TxDict) (tx_hash : Sha3Hash)
    (block_number : option Z) :
  (forall db',
     create_from_tx HexBytes db tx tx_hash block_number = inr db' <->
     exists sender gas gas_price raw data nonce value,
       tx_from tx = Some sender /\ tx_gas tx = Some gas /\
       tx_gasPrice tx = Some gas_price /\ tx_data tx = Some raw /\
       HexBytes raw = Some data /\ tx_nonce tx = Some nonce /\
       tx_value tx = Some value /\
       ethereum_txs db !! tx_hash = None /\
       db' = {| safe_contracts := safe_contracts db;
                safe_creation2s := safe_creation2s db;
                safe_fundings := safe_fundings db;
                ethereum_txs :=
                  <[tx_hash := {| EthereumTx.tx_hash := tx_hash;
                                  EthereumTx.block_number := block_number;
                                  EthereumTx.gas_used := None;
                                  EthereumTx._from := sender;
                                  EthereumTx.gas := gas;
                                  EthereumTx.gas_price := gas_price;
                                  EthereumTx.data := Some data;
                                  EthereumTx.nonce := nonce;
                                  EthereumTx.to := dict_get (tx_to tx);
                                  EthereumTx.value := value |}]>
                    (ethereum_txs db);
                safe_multisig_txs := safe_multisig_txs db |}) /\
  (forall key,
     create_from_tx HexBytes db tx tx_hash block_number = inl (KeyError key) ->
     first_missing_key tx = Some key) /\
  create_from_tx HexBytes db (with_to tx None) tx_hash block_number
  = create_from_tx HexBytes db (with_to tx (Some None)) tx_hash block_number.
Proof.
  split; [|split].
  - intros db'. split.
    + unfold create_from_tx.
      destruct (tx_from tx) as [sender|]; [|discriminate].
      destruct (tx_gas tx) as [gas|]; [|discriminate].
      destruct (tx_gasPrice tx) as [gas_price|]; [|discriminate].
      destruct (tx_data tx) as [raw|]; [|discriminate].
      cbn [getitem]. destruct (HexBytes raw) as [data|] eqn:Hd; [|discriminate].
      destruct (tx_nonce tx) as [nonce|]; [|discriminate].
      destruct (tx_value tx) as [value|]; [|discriminate].
      cbn [getitem]. unfold create_ethereum_tx. cbn [EthereumTx.tx_hash].
      destruct (ethereum_txs db !! tx_hash) eqn:Hl; [discriminate|].
      intros [= <-]. exists sender, gas, gas_price, raw, data, nonce, value.
      repeat split; assumption.
    + intros (sender & gas & gas_price & raw & data & nonce & value
              & H1 & H2 & H3 & H4 & H5 & H6 & H7 & Hl & ->).
      rewrite (create_from_tx_present db tx tx_hash block_number sender gas gas_price
                 raw data nonce value H1 H2 H3 H4 H5 H6 H7).
      unfold create_ethereum_tx. cbn [EthereumTx.tx_hash]. rewrite Hl. reflexivity.
  - intros key. unfold create_from_tx, first_missing_key.
    destruct (tx_from tx) as [sender|]; [|now intros [= <-]].
    destruct (tx_gas tx) as [gas|]; [|now intros [= <-]].
    destruct (tx_gasPrice tx) as [gas_price|]; [|now intros [= <-]].
    destruct (tx_data tx) as [raw|]; [|now intros [= <-]].
    cbn [getitem is_None]. destruct (HexBytes raw) as [data|]; [|discriminate].
    destruct (tx_nonce tx) as [nonce|]; [|now intros [= <-]].
    destruct (tx_value tx) as [value|]; [|now intros [= <-]].
    cbn [getitem is_None]. destruct (create_ethereum_tx _ _); discriminate.
  - reflexivity.
Qed.

Example create_from_tx_sample :
  exists db',
    create_from_tx sample_HexBytes empty_database sample_tx sample_hash_1 None = inr db' /\
    EthereumTx.to <$> (ethereum_txs db' !! sample_hash_1) = Some None /\
    create_from_tx sample_HexBytes db' sample_tx sample_hash_1 None
    = inl (StoreError IntegrityError).
Proof. eexists. repeat split; vm_compute; reflexivity. Qed.

End CreateFromTxFacts.

(** ** [add_token.Command.handle] *)

Section AddTokenFacts.

Import AddToken.

Variable toChecksumAddress : string -> option string.
Variable get_info : string -> option Erc20Info.

Local Abbreviation run_token := (handle_token toChecksumAddress get_info).
Local Abbreviation run_handle := (handle toChecksumAddress get_info).

(** One argument leaves the table as it was or adds one token under a new
    address, made from what [get_info] says about that address. *)
Lemma handle_token_tokens (no_prompt : bool) (t : string) (s : State) :
  tokens (snd (run_token no_prompt t s)) = tokens s \/
  exists a info,
    toChecksumAddress t = Some a /\ tokens s !! a = None /\ get_info a = Some info /\
    tokens (snd (run_token no_prompt t s)) = <[a := token_of_info a info]> (tokens s).
Proof.
  unfold handle_token.
  destruct (toChecksumAddress t) as [a|] eqn:Ha; [|now left].
  destruct (tokens s !! a) as [tok|] eqn:Hl; [now left|].
  destruct (get_info a) as [info|] eqn:Hi; [|now left].
  destruct no_prompt; cbn.
  - right. exists a, info. auto.
  - destruct (stdin s) as [|line rest]; [now left|].
    destruct (String.eqb (lower (strip line)) "y"); [|now left].
    right. exists a, info. auto.
Qed.

Lemma handle_cons (no_prompt : bool) (t : string) (rest : list string) (s : State) :
  run_handle (t :: rest) no_prompt s
  = match run_token no_prompt t s with
    | (Some e, s') => (Some e, s')
    | (None, s') => run_handle rest no_prompt s'
    end.
Proof. reflexivity. Qed.

Lemma handle_tokens_step (no_prompt : bool) (t : string) (rest : list string)
    (s : State) :
  snd (run_handle (t :: rest) no_prompt s) = snd (run_token no_prompt t s) \/
  snd (run_handle (t :: rest) no_prompt s)
  = snd (run_handle rest no_prompt (snd (run_token no_prompt t s))).
Proof.
  rewrite handle_cons. destruct (run_token no_prompt t s) as [[e|] s']; cbn; auto.
Qed.

(** X16. [handle] never changes or removes a token that is already in the
    table, whatever the arguments and the replies, and also when it ends
    early. *)
Theorem handle_keeps_existing_tokens (token_addresses : list string) (no_prompt : bool)
    (s : State) (a : string) (token : Token) :
  tokens s !! a = Some token ->
  tokens (snd (run_handle token_addresses no_prompt s)) !! a = Some token.
Proof.
  revert s. induction token_addresses as [|t rest IH]; intros s Hs; [exact Hs|].
  assert (Hstep : tokens (snd (run_token no_prompt t s)) !! a = Some token).
  { destruct (handle_token_tokens no_prompt t s) as [->|(b & info & _ & Hb & _ & ->)];
      [exact Hs|].
    rewrite lookup_insert_ne; [exact Hs|]. intros ->. congruence. }
  destruct (handle_tokens_step no_prompt t rest s) as [->| ->]; [exact Hstep|].
  now apply IH.
Qed.

(** X17. Every token in the table after [handle] was there before, or was
    created for the checksummed form of one of the arguments from the name,
    symbol and decimals that [get_info] gives for that address. *)
Theorem handle_creates_only_from_info (token_addresses : list string) (no_prompt : bool)
    (s : State) (a : string) (token : Token) :
  tokens (snd (run_handle token_addresses no_prompt s)) !! a = Some token ->
  tokens s !! a = Some token \/
  exists t info,
    In t token_addresses /\ toChecksumAddress t = Some a /\ get_info a = Some info /\
    token = token_of_info a info.
Proof.
  revert s. induction token_addresses as [|t rest IH]; intros s Hs; [now left|].
  assert (Hstep : forall tok,
            tokens (snd (run_token no_prompt t s)) !! a = Some tok ->
            tokens s !! a = Some tok \/
            exists info, toChecksumAddress t = Some a /\ get_info a = Some info /\
                         tok = token_of_info a info).
  { intros tok.
    destruct (handle_token_tokens no_prompt t s) as [->|(b & info & Hb & _ & Hi & ->)];
      [auto|].
    rewrite lookup_insert. destruct (decide (b = a)) as [->|]; [|auto].
    intros [= <-]. right. eauto. }
  destruct (handle_tokens_step no_prompt t rest s) as [E|E]; rewrite E in Hs.
  - destruct (Hstep token Hs) as [H|(info & H1 & H2 & H3)]; [now left|].
    right. exists t, info. cbn. auto.
  - destruct (IH _ Hs) as [H|(t' & info & H0 & H1 & H2 & H3)].
    + destruct (Hstep token H) as [H'|(info & H1 & H2 & H3)]; [now left|].
      right. exists t, info. cbn. auto.
    + right. exists t', info. cbn. auto.
Qed.

(** With [no_prompt], one argument that has a checksummed form. *)
Lemma handle_token_no_prompt (t a : string) (s : State) :
  toChecksumAddress t = Some a ->
  fst (run_token true t s) = None /\
  stdin (snd (run_token true t s)) = stdin s /\
  length (stdout (snd (run_token true t s))) = S (length (stdout s)) /\
  (get_info a <> None -> is_Some (tokens (snd (run_token true t s)) !! a)) /\
  (tokens s !! a <> None \/ get_info a = None ->
   tokens (snd (run_token true t s)) = tokens s).
Proof.
  intros Ha. unfold handle_token. rewrite Ha.
  destruct (tokens s !! a) as [tok|] eqn:Hl.
  - cbn. rewrite length_app, Nat.add_comm. cbn. rewrite Hl. eauto 7.
  - destruct (get_info a) as [info|] eqn:Hi; cbn.
    + rewrite length_app, Nat.add_comm. cbn. rewrite lookup_insert_eq.
      repeat split; eauto. intros [H|H]; congruence.
    + rewrite length_app, Nat.add_comm. cbn. repeat split; auto. congruence.
Qed.

Lemma is_Some_tokens_kept (no_prompt : bool) (t k : string) (s : State) :
  is_Some (tokens s !! k) -> is_Some (tokens (snd (run_token no_prompt t s)) !! k).
Proof.
  intros H.
  destruct (handle_token_tokens no_prompt t s) as [->|(b & info & _ & _ & _ & ->)];
    [exact H|].
  rewrite lookup_insert. destruct (decide (b = k)); [eauto|exact H].
Qed.

Lemma handle_no_prompt_aux (token_addresses : list string) (s : State) :
  (forall t, In t token_addresses -> toChecksumAddress t <> None) ->
  fst (run_handle token_addresses true s) = None /\
  stdin (snd (run_handle token_addresses true s)) = stdin s /\
  length (stdout (snd (run_handle token_addresses true s)))
  = length (stdout s) + length token_addresses /\
  (forall k, is_Some (tokens s !! k) ->
             is_Some (tokens (snd (run_handle token_addresses true s)) !! k)) /\
  (forall t a, In t token_addresses -> toChecksumAddress t = Some a ->
     get_info a <> None ->
     is_Some (tokens (snd (run_handle token_addresses true s)) !! a)).
Proof.
  revert s. induction token_addresses as [|t rest IH]; intros s Hargs.
  - cbn. repeat split; auto. intros t a [].
  - destruct (toChecksumAddress t) as [a|] eqn:Ha;
      [|destruct (Hargs t (or_introl eq_refl) Ha)].
    destruct (handle_token_no_prompt t a s Ha) as (H1 & H2 & H3 & H4 & _).
    rewrite handle_cons.
    destruct (run_token true t s) as [[e|] s'] eqn:E; cbn [fst snd] in *;
      [discriminate|].
    destruct (IH s' (fun t' Ht' => Hargs t' (or_intror Ht'))) as (I1 & I2 & I3 & I4 & I5).
    split; [exact I1|]. split; [congruence|]. split; [cbn; lia|]. split.
    + intros k Hk. apply I4.
      pose proof (is_Some_tokens_kept true t k s Hk) as Hk'. now rewrite E in Hk'.
    + intros t' a' [<-|Ht'] Ha' Hi.
      * apply I4. assert (a' = a) as -> by congruence. now apply H4.
      * now apply (I5 t' a').
Qed.

(** X18. With [no_prompt], when every argument has a checksummed form,
    [handle] ends normally without reading the terminal, writes exactly one
    line per argument, and afterwards the table holds a token for every
    argument whose address [get_info] accepts. *)
Theorem handle_no_prompt_complete (token_addresses : list string) (s : State) :
  (forall t, In t token_addresses -> toChecksumAddress t <> None) ->
  fst (run_handle token_addresses true s) = None /\
  stdin (snd (run_handle token_addresses true s)) = stdin s /\
  length (stdout (snd (run_handle token_addresses true s)))
  = length (stdout s) + length token_addresses /\
  (forall t a, In t token_addresses -> toChecksumAddress t = Some a ->
     get_info a <> None ->
     is_Some (tokens (snd (run_handle token_addresses true s)) !! a)).
Proof.
  intros Hargs.
  destruct (handle_no_prompt_aux token_addresses s Hargs) as (H1 & H2 & H3 & _ & H5).
  auto.
Qed.

Lemma is_Some_tokens_kept_handle (no_prompt : bool) (token_addresses : list string)
    (k : string) (s : State) :
  is_Some (tokens s !! k) ->
  is_Some (tokens (snd (run_handle token_addresses no_prompt s)) !! k).
Proof.
  revert s. induction token_addresses as [|t rest IH]; intros s H; [exact H|].
  pose proof (is_Some_tokens_kept no_prompt t k s H) as Hstep.
  destruct (handle_tokens_step no_prompt t rest s) as [->| ->]; [exact Hstep|].
  now apply IH.
Qed.

(** With [no_prompt], on a table that already holds every token a run from
    [s] ends with, a run with the same arguments creates nothing; an argument
    without a checksummed form ends both runs at the same place. *)
Lemma handle_no_prompt_nothing_new (token_addresses : list string) (s s2 : State) :
  (forall k, is_Some (tokens (snd (run_handle token_addresses true s)) !! k) ->
             is_Some (tokens s2 !! k)) ->
  tokens (snd (run_handle token_addresses true s2)) = tokens s2.
Proof.
  revert s s2. induction token_addresses as [|t rest IH]; intros s s2 Hknown;
    [reflexivity|].
  rewrite handle_cons.
  destruct (toChecksumAddress t) as [a|] eqn:Ha.
  - destruct (handle_token_no_prompt t a s Ha) as (H1 & _ & _ & H4 & _).
    destruct (handle_token_no_prompt t a s2 Ha) as (G1 & _ & _ & _ & G5).
    rewrite handle_cons in Hknown.
    destruct (run_token true t s) as [[e|] s'] eqn:E; cbn [fst snd] in *;
      [discriminate|].
    assert (Hsame : tokens (snd (run_token true t s2)) = tokens s2).
    { apply G5. destruct (get_info a) as [info|] eqn:Hi; [left|now right].
      assert (Hin : is_Some (tokens s2 !! a)).
      { apply Hknown. apply is_Some_tokens_kept_handle. apply H4. discriminate. }
      destruct Hin as [tok Htok]. congruence. }
    destruct (run_token true t s2) as [[e|] s2'] eqn:E2; cbn [fst snd] in *;
      [discriminate|].
    rewrite (IH s' s2'); [exact Hsame|].
    intros k Hk. rewrite Hsame. now apply Hknown.
  - unfold handle_token. rewrite Ha. reflexivity.
Qed.

(** X19. With [no_prompt], running [handle] a second time with the same
    arguments adds nothing: the table after the second run is the table after
    the first. This holds for all arguments, also when one of them has no
    checksummed form and ends both runs early. *)
Theorem handle_no_prompt_idempotent (token_addresses : list string) (s : State) :
  tokens (snd (run_handle token_addresses true
                 (snd (run_handle token_addresses true s))))
  = tokens (snd (run_handle token_addresses true s)).
Proof. apply (handle_no_prompt_nothing_new token_addresses s). auto. Qed.

End AddTokenFacts.

Section AddTokenSamples.

Import AddToken.

Lemma sample_arguments_checksummed (t : string) :
  In t [dai_address; unknown_token_address; usdc_address; dai_address] ->
  sample_checksum t <> None.
Proof. intros [<-|[<-|[<-|[<-|[]]]]]; vm_compute; discriminate. Qed.

(** [handle_keeps_existing_tokens] on a table that knows the first token
    under another name. *)
Lemma handle_keeps_existing_tokens_witness :
  tokens (snd (handle sample_checksum sample_get_info [dai_address; usdc_address] true
                 state_with_dai)) !! dai_address
  = Some renamed_dai_token.
Proof.
  apply handle_keeps_existing_tokens. vm_compute; reflexivity.
Defined.

(** [handle_creates_only_from_info] on the token created for the first
    argument. *)
Lemma handle_creates_only_from_info_witness :
  tokens (empty_state []) !! dai_address = Some dai_token \/
  exists t info,
    In t [dai_address; unknown_token_address] /\
    sample_checksum t = Some dai_address /\
    sample_get_info dai_address = Some info /\
    dai_token = token_of_info dai_address info.
Proof.
  apply (handle_creates_only_from_info sample_checksum sample_get_info
           [dai_address; unknown_token_address] true (empty_state [])).
  vm_compute; reflexivity.
Defined.

(** [handle_no_prompt_complete] on four arguments, one of them unknown to the
    registry and one given twice. *)
Lemma handle_no_prompt_complete_witness :
  fst (handle sample_checksum sample_get_info
         [dai_address; unknown_token_address; usdc_address; dai_address] true
         (empty_state [])) = None /\
  length (stdout (snd (handle sample_checksum sample_get_info
                         [dai_address; unknown_token_address; usdc_address; dai_address]
                         true (empty_state [])))) = 4.
Proof.
  destruct (handle_no_prompt_complete sample_checksum sample_get_info
              [dai_address; unknown_token_address; usdc_address; dai_address]
              (empty_state []) sample_arguments_checksummed) as (H1 & _ & H3 & _).
  split; [exact H1 | exact H3].
Defined.

(** [handle_no_prompt_idempotent] on arguments of which the third has no
    checksummed form, so that both runs end before the fourth. *)
Lemma handle_no_prompt_idempotent_witness :
  tokens (snd (handle sample_checksum sample_get_info
                 [dai_address; unknown_token_address; short_address; usdc_address] true
                 (snd (handle sample_checksum sample_get_info
                         [dai_address; unknown_token_address; short_address; usdc_address]
                         true (empty_state [])))))
  = tokens (snd (handle sample_checksum sample_get_info
                   [dai_address; unknown_token_address; short_address; usdc_address] true
                   (empty_state []))).
Proof. apply handle_no_prompt_idempotent. Defined.

Example handle_invalid_address_ends_the_run :
  fst (handle sample_checksum sample_get_info
         [dai_address; unknown_token_address; short_address; usdc_address] true
         (empty_state [])) = Some InvalidAddress /\
  tokens (snd (handle sample_checksum sample_get_info
                 [dai_address; unknown_token_address; short_address; usdc_address] true
                 (empty_state []))) !! dai_address = Some dai_token /\
  tokens (snd (handle sample_checksum sample_get_info
                 [dai_address; unknown_token_address; short_address; usdc_address] true
                 (empty_state []))) !! usdc_address = None.
Proof. repeat split; vm_compute; reflexivity. Qed.

Example handle_no_prompt_messages :
  stdout (snd (handle sample_checksum sample_get_info
                 [dai_address; unknown_token_address; dai_address] true (empty_state [])))
  = [SUCCESS "Created token Dai Stablecoin on address 0x6B175474E89094C44Da98b954EedeAC495271d0F";
     ERROR "Token with address 0xdbF03B407c01E7cD3CBea99509d93f8DDDC8C6FB is not valid";
     WARNING "Token Dai Stablecoin - DAI with address 0x6B175474E89094C44Da98b954EedeAC495271d0F already exists"].
Proof. vm_compute; reflexivity. Qed.

Example handle_asks_and_reads_replies :
  fst (handle sample_checksum sample_get_info [dai_address; usdc_address] false
         (empty_state ["  Y  "; "yes"; "left over"])) = None /\
  stdin (snd (handle sample_checksum sample_get_info [dai_address; usdc_address] false
                (empty_state ["  Y  "; "yes"; "left over"]))) = ["left over"] /\
  tokens (snd (handle sample_checksum sample_get_info [dai_address; usdc_address] false
                 (empty_state ["  Y  "; "yes"; "left over"]))) !! dai_address
  = Some dai_token /\
  tokens (snd (handle sample_checksum sample_get_info [dai_address; usdc_address] false
                 (empty_state ["  Y  "; "yes"; "left over"]))) !! usdc_address
  = None.
Proof. repeat split; vm_compute; reflexivity. Qed.

Example handle_without_reply_aborts :
  handle sample_checksum sample_get_info [dai_address] false (empty_state [])
  = (Some EOFError, empty_state []).
Proof. reflexivity. Qed.

End AddTokenSamples.

(** ** [SafeFunding.is_all_funded] *)

Section AllFunded.

(** X20. A funding record on which [is_all_funded()] holds is never reported
    below the deployer-funded stage: its status is DEPLOYER_FUNDED,
    DEPLOYED_UNCHECKED or DEPLOYED. *)
Theorem all_funded_status (f : SafeFunding.t) :
  SafeFunding.is_all_funded f = true ->
  SafeFunding.status f = "DEPLOYER_FUNDED" \/
  SafeFunding.status f = "DEPLOYED_UNCHECKED" \/
  SafeFunding.status f = "DEPLOYED".
Proof.
  unfold SafeFunding.is_all_funded, SafeFunding.status.
  intros H. apply andb_true_iff in H as [_ ->].
  destruct (SafeFunding.safe_deployed f); [auto|].
  destruct (hash_truthy (SafeFunding.safe_deployed_tx_hash f)); auto.
Qed.

(** [all_funded_status] on a record with both funding facts set. *)
Lemma all_funded_status_witness :
  SafeFunding.status deployer_funded_without_hashes = "DEPLOYER_FUNDED" \/
  SafeFunding.status deployer_funded_without_hashes = "DEPLOYED_UNCHECKED" \/
  SafeFunding.status deployer_funded_without_hashes = "DEPLOYED".
Proof. apply all_funded_status. reflexivity. Defined.

End AllFunded.
